(** * commit_analysis.py: a shallow embedding and its verified properties

    The script reads a repository's commit log, filters and groups the
    commits by date, asks a remote service for a summary of each date's
    messages and writes a markdown report.

    Conventions of the embedding:
    - a Python [str] is a [string]; each [ascii] stands for one code point
      below 256, and the character classes ([str.isspace], line boundaries,
      digits) are those of CPython restricted to that range;
    - a call that can raise returns a [result]; code with effects (console,
      files, HTTP, [sys.exit]) runs in the monad [M] over a [world];
    - the remote service, the [git] child process and the text of an
      exception are parameters of the script (section [Script]); file
      operations succeed;
    - [os.path] is the POSIX one; the library functions ([str] methods,
      [strptime], [int], [os.path]) are modelled after CPython 3. *)

From Stdlib Require Import Ascii ZArith Lia Bool.
From Stdlib Require String.
From Stdlib Require Import Floats.SpecFloat.
From stdpp Require Import gmap strings list sorting pretty.

Local Open Scope char_scope.
Local Open Scope stdpp_scope.

(** ** Strings *)

Module Str.

(** [str.isspace] on one character: U+0009..U+000D, U+001C..U+001F, U+0020,
    U+0085 and U+00A0.  The regular expression class [\s] is the same set. *)
Definition is_space (c : ascii) : bool :=
  let n := nat_of_ascii c in
  ((9 <=? n) && (n <=? 13) || (28 <=? n) && (n <=? 31)
   || (n =? 32) || (n =? 133) || (n =? 160))%nat.

(** [c in chars] for a character [c]. *)
Fixpoint mem (c : ascii) (chars : string) : bool :=
  match chars with
  | "" => false
  | String a rest => Ascii.eqb c a || mem c rest
  end.

Definition is_empty (s : string) : bool :=
  match s with "" => true | _ => false end.

(** [s.lstrip(..)], [s.rstrip(..)] and [s.strip(..)], by the set of characters
    taken off. *)
Fixpoint lstrip_by (p : ascii -> bool) (s : string) : string :=
  match s with
  | "" => ""
  | String c rest => if p c then lstrip_by p rest else s
  end.

Fixpoint rstrip_by (p : ascii -> bool) (s : string) : string :=
  match s with
  | "" => ""
  | String c rest =>
      match rstrip_by p rest with
      | "" => if p c then "" else String c ""
      | kept => String c kept
      end
  end.

Definition strip_by (p : ascii -> bool) (s : string) : string :=
  rstrip_by p (lstrip_by p s).

(** [s.strip()] *)
Definition strip : string -> string := strip_by is_space.
(** [s.strip(chars)] and [s.lstrip(chars)] *)
Definition strip_chars (chars : string) : string -> string :=
  strip_by (fun c => mem c chars).
Definition lstrip_chars (chars : string) : string -> string :=
  lstrip_by (fun c => mem c chars).

(** [s.partition(sep)] for a one-character separator: the text before the
    first [sep] and the text after it, or [None] when [sep] does not occur. *)
Fixpoint partition (sep : ascii) (s : string) : option (string * string) :=
  match s with
  | "" => None
  | String c rest =>
      if Ascii.eqb c sep then Some ("", rest)
      else match partition sep rest with
           | Some (before, after) => Some (String c before, after)
           | None => None
           end
  end.

(** [s.split(sep, maxsplit)] *)
Fixpoint split_max (maxsplit : nat) (sep : ascii) (s : string) : list string :=
  match maxsplit with
  | O => [s]
  | S n =>
      match partition sep s with
      | Some (before, after) => before :: split_max n sep after
      | None => [s]
      end
  end.

(** [s.split(sep)] *)
Fixpoint split (sep : ascii) (s : string) : list string :=
  match s with
  | "" => [""]
  | String c rest =>
      if Ascii.eqb c sep then "" :: split sep rest
      else match split sep rest with
           | field :: fields => String c field :: fields
           | [] => [String c ""]
           end
  end.

(** [sep.join(parts)] *)
Fixpoint join (sep : string) (parts : list string) : string :=
  match parts with
  | [] => ""
  | [p] => p
  | p :: rest => p +:+ sep +:+ join sep rest
  end.

(** Number of occurrences of a character: [s.count(c)]. *)
Fixpoint count (c : ascii) (s : string) : nat :=
  match s with
  | "" => 0
  | String a rest => (if Ascii.eqb a c then 1 else 0) + count c rest
  end.

(** [s.startswith(c)] and [s.endswith(c)] for a one-character argument. *)
Definition startswith (c : ascii) (s : string) : bool :=
  match s with String a _ => Ascii.eqb a c | "" => false end.

Fixpoint endswith (c : ascii) (s : string) : bool :=
  match s with
  | "" => false
  | String a "" => Ascii.eqb a c
  | String _ rest => endswith c rest
  end.

(** A line boundary of [str.splitlines] other than the pair CR LF. *)
Definition is_linebreak (c : ascii) : bool :=
  let n := nat_of_ascii c in
  ((10 <=? n) && (n <=? 13) || (28 <=? n) && (n <=? 30) || (n =? 133))%nat.

(** [s.splitlines()]: the lines without their line breaks; CR LF is one
    break, and a final line break opens no empty last line. *)
Fixpoint splitlines (s : string) : list string :=
  match s with
  | "" => []
  | String c rest =>
      if is_linebreak c then
        "" :: (if Ascii.eqb c "013"%char then
                 match rest with
                 | String a rest' =>
                     if Ascii.eqb a "010"%char then splitlines rest'
                     else splitlines rest
                 | "" => splitlines rest
                 end
               else splitlines rest)
      else match splitlines rest with
           | line :: lines => String c line :: lines
           | [] => [String c ""]
           end
  end.

End Str.

(** The newline character and the one-character string of it. *)
Definition LF : ascii := "010"%char.
Definition NL : string := String LF "".

(** ** Exceptions and results *)

(** The exceptions the script can meet.  [SystemExit] is what [sys.exit]
    raises; it is a [BaseException], which [except Exception] lets through.
    The last four are failures of the environment: of the [git] child
    process, of the HTTP exchange, of the server's status and of the
    decoding of its answer. *)
Inductive exn :=
| SystemExit (code : nat)
| ValueError
| AttributeError
| TypeError
| KeyError
| IndexError
| EOFError
| OverflowError
| SubprocessError (reason : string)
| RequestException (reason : string)
| HTTPError (status : nat)
| JSONDecodeError.

(** [isinstance(e, Exception)] *)
Definition is_Exception (e : exn) : bool :=
  match e with SystemExit _ => false | _ => true end.

Inductive result (A : Type) :=
| Ok (a : A)
| Raise (e : exn).
Arguments Ok {A} a.
Arguments Raise {A} e.

(** ** Calendar dates *)

(** [datetime.date] *)
Record cal_date := Date { year : Z; month : Z; day : Z }.

Definition date_eqb (a b : cal_date) : bool :=
  (year a =? year b)%Z && (month a =? month b)%Z && (day a =? day b)%Z.

(** [a < b] on dates: year, then month, then day. *)
Definition date_ltb (a b : cal_date) : bool :=
  (year a <? year b)%Z
  || (year a =? year b)%Z
     && ((month a <? month b)%Z
         || (month a =? month b)%Z && (day a <? day b)%Z).

Definition is_leap (y : Z) : bool :=
  ((y mod 4 =? 0) && (negb (y mod 100 =? 0) || (y mod 400 =? 0)))%Z.

Definition days_in_month (y m : Z) : Z :=
  match m with
  | 2 => if is_leap y then 29 else 28
  | 4 | 6 | 9 | 11 => 30
  | _ => 31
  end%Z.

(** What the constructor [datetime.date(y, m, d)] accepts. *)
Definition valid_date (y m d : Z) : bool :=
  ((1 <=? y) && (y <=? 9999) && (1 <=? m) && (m <=? 12)
   && (1 <=? d) && (d <=? days_in_month y m))%Z.

Definition digit (c : ascii) : option Z := Z.of_nat <$> Ascii.is_nat c.

(** The month field of [strptime]: [1[0-2]|0[1-9]|[1-9]]. *)
Definition month_field (s : string) : option Z :=
  match s with
  | String a "" =>
      match digit a with
      | Some n => if (1 <=? n)%Z then Some n else None
      | None => None
      end
  | String a (String b "") =>
      match digit a, digit b with
      | Some 1%Z, Some n => if (n <=? 2)%Z then Some (10 + n)%Z else None
      | Some 0%Z, Some n => if (1 <=? n)%Z then Some n else None
      | _, _ => None
      end
  | _ => None
  end.

(** The day field of [strptime]: [3[0-1]|[1-2]\d|0[1-9]|[1-9]| [1-9]]. *)
Definition day_field (s : string) : option Z :=
  match s with
  | String a "" =>
      match digit a with
      | Some n => if (1 <=? n)%Z then Some n else None
      | None => None
      end
  | String a (String b "") =>
      match digit b with
      | Some n =>
          if Ascii.eqb a " "%char then
            if (1 <=? n)%Z then Some n else None
          else
            match digit a with
            | Some 3%Z => if (n <=? 1)%Z then Some (30 + n)%Z else None
            | Some 2%Z => Some (20 + n)%Z
            | Some 1%Z => Some (10 + n)%Z
            | Some 0%Z => if (1 <=? n)%Z then Some n else None
            | _ => None
            end
      | None => None
      end
  | _ => None
  end.

(** [datetime.datetime.strptime(s, '%Y-%m-%d').date()]: four digits, the
    month field and the day field, separated by dashes and with nothing left
    over, naming a day of the calendar; [ValueError] otherwise. *)
Definition strptime (s : string) : result cal_date :=
  match s with
  | String y1 (String y2 (String y3 (String y4 (String "-" rest)))) =>
      match digit y1, digit y2, digit y3, digit y4, Str.partition "-" rest with
      | Some a, Some b, Some c, Some d, Some (ms, ds) =>
          match month_field ms, day_field ds with
          | Some m, Some dd =>
              let y := (1000 * a + 100 * b + 10 * c + d)%Z in
              if valid_date y m dd then Ok (Date y m dd) else Raise ValueError
          | _, _ => Raise ValueError
          end
      | _, _, _, _, _ => Raise ValueError
      end
  | _ => Raise ValueError
  end.

(** Two decimal digits, and four. *)
Definition digit_char (n : Z) : ascii :=
  ascii_of_N (48 + Z.to_N (n mod 10)).
Definition pad2 (n : Z) : string :=
  String (digit_char (n / 10)) (String (digit_char n) "").
Definition pad4 (n : Z) : string := pad2 (n / 100) +:+ pad2 (n mod 100).

(** [d.strftime('%Y-%m-%d')], the year on four digits. *)
Definition strftime (d : cal_date) : string :=
  pad4 (year d) +:+ "-" +:+ pad2 (month d) +:+ "-" +:+ pad2 (day d).

(** [d - datetime.timedelta(days=1)]; the day before 0001-01-01 is out of the
    range of [datetime.date]. *)
Definition day_before (d : cal_date) : result cal_date :=
  if (2 <=? day d)%Z then Ok (Date (year d) (month d) (day d - 1))
  else if (2 <=? month d)%Z then
    Ok (Date (year d) (month d - 1) (days_in_month (year d) (month d - 1)))
  else if (2 <=? year d)%Z then Ok (Date (year d - 1) 12 31)
  else Raise OverflowError.

(** ** Commits *)

(** One record of the log: the dict [{'hash': .., 'date': .., 'message': ..}]. *)
Record commit := Commit { hash : string; date : string; message : string }.

(** The loop of [fetch_commits] over the lines of the log (lines 45 to 53). *)
Definition parse_log_line (commits : list commit) (line : string) : list commit :=
  if Str.is_empty (Str.strip line) then commits
  else
    match Str.split_max 2 "|" line with
    | [commit_hash; date; message] =>
        commits ++ [Commit commit_hash date message]
    | _ => commits
    end.

Definition parse_log_lines (lines : list string) : list commit :=
  fold_left parse_log_line lines [].

(** [result.stdout.strip().split('\n')] and the loop over it. *)
Definition parse_log (stdout : string) : list commit :=
  parse_log_lines (Str.split LF (Str.strip stdout)).

(** [group_commits_by_date]: the [defaultdict(list)] is a list of pairs of a
    key and its list, in the order in which the keys were first added. *)
Fixpoint dict_get {V : Type} (d : list (string * V)) (k : string) : option V :=
  match d with
  | [] => None
  | (k', v) :: rest => if String.eqb k' k then Some v else dict_get rest k
  end.

(** [grouped[k].append(msg)], where a missing key starts from the empty list. *)
Fixpoint dict_append (d : list (string * list string)) (k msg : string)
  : list (string * list string) :=
  match d with
  | [] => [(k, [msg])]
  | (k', v) :: rest =>
      if String.eqb k' k then (k', v ++ [msg]) :: rest
      else (k', v) :: dict_append rest k msg
  end.

Definition group_commits_by_date (commits : list commit)
  : list (string * list string) :=
  fold_left (fun grouped c => dict_append grouped (date c) (message c))
            commits [].

(** [filter_commits]: the date of every commit is parsed before the bounds are
    looked at, and a date that does not parse raises out of the loop.  An
    absent bound is [None]; a date object is always true. *)
Definition filter_step (start_date end_date : option cal_date)
    (acc : result (list commit)) (c : commit) : result (list commit) :=
  match acc with
  | Raise e => Raise e
  | Ok filtered =>
      match strptime (date c) with
      | Raise e => Raise e
      | Ok commit_date =>
          if match start_date with
             | Some s => date_ltb commit_date s
             | None => false
             end then Ok filtered
          else if match end_date with
                  | Some e => date_ltb e commit_date
                  | None => false
                  end then Ok filtered
          else Ok (filtered ++ [c])
      end
  end.

Definition filter_commits (commits : list commit)
    (start_date end_date : option cal_date) : result (list commit) :=
  fold_left (filter_step start_date end_date) commits (Ok []).

(** ** Python values read from JSON *)

(** What [response.json()] can return.  A dict is the list of its items; a
    lookup takes the first pair with the key. *)
#[local] Unset Elimination Schemes.
Inductive pyval :=
| PNone
| PBool (b : bool)
| PInt (z : Z)
| PFloat (f : spec_float)
| PStr (s : string)
| PList (items : list pyval)
| PDict (items : list (string * pyval)).
#[local] Set Elimination Schemes.

Instance result_ret : MRet result := fun _ a => Ok a.
Instance result_bind : MBind result := fun _ _ f r =>
  match r with
  | Ok a => f a
  | Raise e => Raise e
  end.

(** [bool(v)] *)
Definition truthy (v : pyval) : bool :=
  match v with
  | PNone => false
  | PBool b => b
  | PInt z => negb (z =? 0)%Z
  | PFloat (S754_zero _) => false
  | PFloat _ => true
  | PStr s => negb (Str.is_empty s)
  | PList l => match l with [] => false | _ => true end
  | PDict d => match d with [] => false | _ => true end
  end.

(** [sub in s] on strings. *)
Definition is_substring (sub s : string) : bool :=
  match String.index 0 sub s with Some _ => true | None => false end.

(** [key in v] for a string [key]: a key of a dict, an item of a list, a
    substring of a string; other values are no containers. *)
Definition py_contains (key : string) (v : pyval) : result bool :=
  match v with
  | PDict d => Ok (match dict_get d key with Some _ => true | None => false end)
  | PList l =>
      Ok (existsb (fun x => match x with
                            | PStr s => String.eqb s key
                            | _ => false
                            end) l)
  | PStr s => Ok (is_substring key s)
  | _ => Raise TypeError
  end.

(** [v[key]] for a string [key]. *)
Definition getitem (v : pyval) (key : string) : result pyval :=
  match v with
  | PDict d => match dict_get d key with Some x => Ok x | None => Raise KeyError end
  | _ => Raise TypeError
  end.

(** [v[0]]; the keys of a dict read from JSON are strings, never [0]. *)
Definition getitem0 (v : pyval) : result pyval :=
  match v with
  | PList (x :: _) => Ok x
  | PList [] => Raise IndexError
  | PStr (String c _) => Ok (PStr (String c ""))
  | PStr "" => Raise IndexError
  | PDict _ => Raise KeyError
  | _ => Raise TypeError
  end.

(** ** The world *)

(** One HTTP POST as [requests.post(url, json=data, headers=headers,
    timeout=30)] sends it. *)
Record request := Request {
  url : string;
  json_body : pyval;
  headers : list (string * string);
  timeout : nat
}.

(** What comes back: [requests.post] raises (no connection, a timeout, ..),
    or returns a response with a status and a body that decodes as JSON or
    does not. *)
Inductive http_reply :=
| NoReply (reason : string)
| Reply (status : nat) (body : option pyval).

(** What the script reads and changes.  [files] holds the text files by the
    path they are opened with, [dirs] the paths [os.path.isdir] accepts;
    [stdin] is what the operator will type, line by line; [stdout] what was
    printed, in order; [posts] the HTTP requests sent, in order.  File
    operations succeed. *)
Record world := World {
  files : gmap string string;
  dirs : gset string;
  environ : gmap string string;
  cwd : string;
  today : cal_date;
  stdin : list string;
  stdout : list string;
  posts : list request
}.

Definition set_files (f : gmap string string) (w : world) : world :=
  World f (dirs w) (environ w) (cwd w) (today w) (stdin w) (stdout w) (posts w).
Definition set_dirs (d : gset string) (w : world) : world :=
  World (files w) d (environ w) (cwd w) (today w) (stdin w) (stdout w) (posts w).
Definition set_stdin (i : list string) (w : world) : world :=
  World (files w) (dirs w) (environ w) (cwd w) (today w) i (stdout w) (posts w).
Definition set_stdout (o : list string) (w : world) : world :=
  World (files w) (dirs w) (environ w) (cwd w) (today w) (stdin w) o (posts w).
Definition set_posts (p : list request) (w : world) : world :=
  World (files w) (dirs w) (environ w) (cwd w) (today w) (stdin w) (stdout w) p.

(** A computation: from a world to a value or an exception, and the world it
    leaves. *)
Definition M (A : Type) : Type := world -> result A * world.

Instance M_ret : MRet M := fun _ a w => (Ok a, w).
Instance M_bind : MBind M := fun _ _ f m w =>
  match m w with
  | (Ok a, w') => f a w'
  | (Raise e, w') => (Raise e, w')
  end.

Definition raise {A : Type} (e : exn) : M A := fun w => (Raise e, w).
Definition lift {A : Type} (r : result A) : M A := fun w => (r, w).
Definition sys_exit {A : Type} (code : nat) : M A := raise (SystemExit code).

(** [try: body except Exception as e: handler(e)] *)
Definition try_except {A : Type} (body : M A) (handler : exn -> M A) : M A :=
  fun w =>
    match body w with
    | (Raise e, w') => if is_Exception e then handler e w' else (Raise e, w')
    | done => done
    end.

Definition get {A : Type} (f : world -> A) : M A := fun w => (Ok (f w), w).
Definition modify (f : world -> world) : M unit := fun w => (Ok tt, f w).

(** [print(s)] *)
Definition print (s : string) : M unit :=
  modify (fun w => set_stdout (stdout w ++ [s]) w).

(** [input(prompt)]: the prompt is written, a line is read; at the end of the
    input [EOFError]. *)
Definition input (prompt : string) : M string :=
  _ ← print prompt;
  lines ← get stdin;
  match lines with
  | line :: rest => _ ← modify (set_stdin rest); mret line
  | [] => raise EOFError
  end.

(** [for x in xs: acc = body(acc, x)] *)
Fixpoint for_each {A S : Type} (xs : list A) (body : S -> A -> M S) (acc : S)
  : M S :=
  match xs with
  | [] => mret acc
  | x :: rest => acc' ← body acc x; for_each rest body acc'
  end.

(** ** Paths ([posixpath]) *)

(** [os.path.join(a, b)] *)
Definition path_join (a b : string) : string :=
  if Str.startswith "/" b then b
  else if Str.is_empty a || Str.endswith "/" a then a +:+ b
  else a +:+ "/" +:+ b.

(** The loop of [os.path.normpath] over the components of the path. *)
Definition normpath_step (rooted : bool) (new_comps : list string)
    (comp : string) : list string :=
  if String.eqb comp "" || String.eqb comp "." then new_comps
  else if negb (String.eqb comp "..")
          || (negb rooted && match new_comps with [] => true | _ => false end)
          || match last new_comps with
             | Some l => String.eqb l ".."
             | None => false
             end
       then new_comps ++ [comp]
       else removelast new_comps.

(** [os.path.normpath(path)]: two leading slashes are kept, one or three and
    more are one. *)
Definition normpath (path : string) : string :=
  if Str.is_empty path then "."
  else
    let initial_slashes :=
      match path with
      | String "/" (String "/" (String "/" _)) => "/"
      | String "/" (String "/" _) => "//"
      | String "/" _ => "/"
      | _ => ""
      end in
    let comps :=
      fold_left (normpath_step (negb (Str.is_empty initial_slashes)))
                (Str.split "/" path) [] in
    let path := initial_slashes +:+ Str.join "/" comps in
    if Str.is_empty path then "." else path.

(** [os.path.abspath(path)] in the working directory [here]. *)
Definition abspath (here path : string) : string :=
  normpath (if Str.startswith "/" path then path else path_join here path).

(** [os.path.basename(p)]: what follows the last slash. *)
Definition basename (p : string) : string :=
  default "" (last (Str.split "/" p)).

(** ** Task points *)

(** [re.match(r'^[*-]\s+', line)] finds a match. *)
Definition bullet_match (line : string) : bool :=
  match line with
  | String marker (String c _) =>
      (Ascii.eqb marker "*" || Ascii.eqb marker "-") && Str.is_space c
  | _ => false
  end.

Definition extract_task_points (summary : string) : list string :=
  let points :=
    fold_left
      (fun points line =>
         let line := Str.strip line in
         if bullet_match line
         then points ++ [Str.strip (Str.lstrip_chars "*-" line)]
         else points)
      (Str.splitlines summary) [] in
  match points with
  | [] =>
      if negb (Str.is_empty (Str.strip summary)) then [Str.strip summary]
      else points
  | _ => points
  end.

(** ** Files *)

(** The carriage return. *)
Definition CR : ascii := "013"%char.

(** [for line in f], the file opened by [open(path, 'r')]: the lines of a
    text file, each with its newline.  In this mode a line ends at a line
    feed, at a carriage return, or at a carriage return followed by a line
    feed, and each of these ends reads as one line feed. *)
Fixpoint readlines (content : string) : list string :=
  match content with
  | "" => []
  | String c rest =>
      if Ascii.eqb c LF then NL :: readlines rest
      else if Ascii.eqb c CR then
        match rest with
        | String c' _ =>
            if Ascii.eqb c' LF then readlines rest else NL :: readlines rest
        | "" => [NL]
        end
      else match readlines rest with
           | line :: lines => String c line :: lines
           | [] => [String c ""]
           end
  end.

(** [os.path.isfile(path)] and [os.path.isdir(path)] *)
Definition isfile (path : string) : M bool :=
  fs ← get files; mret (bool_decide (is_Some (fs !! path))).
Definition isdir (path : string) : M bool :=
  ds ← get dirs; mret (bool_decide (path ∈ ds)).

(** [open(path, 'w').write(text)]: the file holds [text] and nothing else. *)
Definition write_file (path text : string) : M unit :=
  modify (fun w => set_files (<[path := text]> (files w)) w).

(** [open(path, 'a').write(text)]: [text] is added at the end. *)
Definition append_file (path text : string) : M unit :=
  modify (fun w =>
    set_files (<[path := default "" (files w !! path) +:+ text]> (files w)) w).

(** [os.makedirs(folder, exist_ok=True)] for a folder one level below
    [parent]. *)
Definition makedirs (parent folder : string) : M unit :=
  modify (fun w => set_dirs ({[parent; folder]} ∪ dirs w) w).

Definition REPO_LIST_FILE : string := "repos.txt".
Definition REPORTS_DIR : string := "reports".

(** ** Numbers typed by the operator *)

Inductive int_state := IntStart | IntDigit | IntUnderscore.

(** The digits of [int(s)]: decimal digits, single underscores between them. *)
Fixpoint int_digits (st : int_state) (acc : Z) (s : string) : option Z :=
  match s with
  | "" => match st with IntDigit => Some acc | _ => None end
  | String c rest =>
      match digit c with
      | Some d => int_digits IntDigit (10 * acc + d)%Z rest
      | None =>
          match st with
          | IntDigit =>
              if Ascii.eqb c "_" then int_digits IntUnderscore acc rest
              else None
          | _ => None
          end
      end
  end.

(** [int(s)] *)
Definition py_int (s : string) : result Z :=
  let signed :=
    match Str.strip s with
    | String "+" rest => int_digits IntStart 0 rest
    | String "-" rest => Z.opp <$> int_digits IntStart 0 rest
    | body => int_digits IntStart 0 body
    end in
  match signed with
  | Some z => Ok z
  | None => Raise ValueError
  end.

(** ** The script *)

(** How the [git log] child process ends: it fails (not started, or a
    non-zero exit status under [check=True]), or it prints the log. *)
Inductive git_outcome :=
| GitFailed (reason : string)
| GitOutput (output : string).

(** The [start_date] and [end_date] that [analyze_commits] is given: a date
    object, or a string. *)
Inductive date_arg :=
| DateObj (d : cal_date)
| DateStr (s : string).

(** [a == b] *)
Definition date_arg_eqb (a b : date_arg) : bool :=
  match a, b with
  | DateObj x, DateObj y => date_eqb x y
  | DateStr x, DateStr y => String.eqb x y
  | _, _ => false
  end.

(** [a.strftime('%Y-%m-%d')]: a string has no such attribute. *)
Definition date_arg_strftime (a : date_arg) : result string :=
  match a with
  | DateObj d => Ok (strftime d)
  | DateStr _ => Raise AttributeError
  end.

(** [not v] for an optional string. *)
Definition falsy (v : option string) : bool :=
  match v with
  | Some s => Str.is_empty s
  | None => true
  end.

(** The double quote. *)
Definition DQUOTE : string := String "034"%char "".

(** The loop of [load_dotenv_key] over the lines of the file, up to its
    [return]. *)
Fixpoint dotenv_lookup (key_name : string) (lines : list string)
  : result (option string) :=
  match lines with
  | [] => Ok None
  | line :: rest =>
      if Str.startswith "#" (Str.strip line) || negb (Str.mem "=" line)
      then dotenv_lookup key_name rest
      else
        match Str.split_max 1 "=" (Str.strip line) with
        | [k; v] =>
            if String.eqb (Str.strip k) key_name
            then Ok (Some (Str.strip_chars "'"
                             (Str.strip_chars DQUOTE (Str.strip v))))
            else dotenv_lookup key_name rest
        | _ => Raise ValueError
        end
  end.

(** [response.raise_for_status()] and [response.json()] *)
Definition raise_for_status (status : nat) : result unit :=
  if (400 <=? status)%nat && (status <? 600)%nat then Raise (HTTPError status)
  else Ok tt.
Definition response_json (body : option pyval) : result pyval :=
  match body with
  | Some v => Ok v
  | None => Raise JSONDecodeError
  end.

Definition GEMINI_URL : string :=
  "https://generativelanguage.googleapis.com/v1beta/models/gemini-2.0-flash:generateContent".
Definition NO_SUMMARY : string := "[No summary returned by Gemini API]".

(** The request of [summarize_with_gemini] (lines 79 to 87). *)
Definition gemini_request (messages : list string) (api_key : string)
  : request :=
  let prompt :=
    "Summarize the following git commit messages as a daily work report, focusing on tasks completed. Messages: "
    +:+ Str.join NL messages in
  let headers :=
    [("Content-Type", "application/json"); ("X-goog-api-key", api_key)] in
  let data :=
    PDict [("contents",
            PList [PDict [("parts", PList [PDict [("text", PStr prompt)]])]])] in
  Request GEMINI_URL data headers 30.

(** What [summarize_with_gemini] returns from the decoded answer (lines 92 to
    94): the text of the first candidate, or the fixed string. *)
Definition first_candidate_text (res : pyval) : result pyval :=
  has ← py_contains "candidates" res;
  candidates ←
    (if has : bool then getitem res "candidates" else mret (PBool false));
  if truthy candidates then
    first ← getitem0 candidates;
    content ← getitem first "content";
    parts ← getitem content "parts";
    part ← getitem0 parts;
    getitem part "text"
  else mret (PStr NO_SUMMARY).

Section Script.

(** [str(e)], as the interpreter renders an exception inside a message. *)
Variable str_exn : exn -> string.
(** The remote service: its reply to a request, given the number of requests
    sent before. *)
Variable http_post : nat -> request -> http_reply.
(** The [git log] child process, by the directory it runs in. *)
Variable git_log : string -> git_outcome.

(** The string that stands for a summary that failed (line 96). *)
Definition gemini_error (e : exn) : string :=
  "[Gemini API error: " +:+ str_exn e +:+ "]".

Definition requests_post (req : request) : M (nat * option pyval) :=
  sent ← get posts;
  modify (set_posts (sent ++ [req]));;
  match http_post (length sent) req with
  | NoReply reason => raise (RequestException reason)
  | Reply status body => mret (status, body)
  end.

Definition load_dotenv_key (key_name : string) : M (option string) :=
  here ← get cwd;
  let env_path := path_join here ".env" in
  present ← isfile env_path;
  if present : bool then
    try_except
      (fs ← get files;
       lift (dotenv_lookup key_name (readlines (default "" (fs !! env_path)))))
      (fun _ => mret None)
  else mret None.

Definition fetch_commits (repo_path : string) : M (list commit) :=
  try_except
    (here ← get cwd;
     let dir := if Str.is_empty repo_path then here else repo_path in
     match git_log dir with
     | GitOutput output => mret (parse_log output)
     | GitFailed reason => raise (SubprocessError reason)
     end)
    (fun e => print ("Error fetching git log: " +:+ str_exn e);; mret []).

Definition summarize_with_gemini (messages : list string) (api_key : string)
  : M pyval :=
  try_except
    ('(status, body) ← requests_post (gemini_request messages api_key);
     lift (raise_for_status status);;
     res ← lift (response_json body);
     lift (first_candidate_text res))
    (fun e => mret (PStr (gemini_error e))).

(** One turn of the loop of [analyze_commits] over the sorted dates.  A
    summary that is no string is formatted into the line all the same, and
    then has no [splitlines] for [extract_task_points]. *)
Definition analyze_date (grouped : list (string * list string))
    (api_key : string) (acc : list string * list string) (date : string)
  : M (list string * list string) :=
  let '(output_lines, all_points) := acc in
  let messages := default [] (dict_get grouped date) in
  let output_lines := output_lines ++ ["## Date: " +:+ date] in
  summary ← summarize_with_gemini messages api_key;
  match summary with
  | PStr summary =>
      let output_lines :=
        output_lines ++ ["**Summary:** " +:+ summary +:+ NL] in
      let output_lines := output_lines ++ ["**Messages:**"] in
      let output_lines :=
        fold_left (fun lines msg => lines ++ ["- " +:+ msg])
                  messages output_lines in
      let output_lines := output_lines ++ [""] in
      let points := extract_task_points summary in
      mret (output_lines, all_points ++ points)
  | _ => raise AttributeError
  end.

Definition analyze_commits (commits : list commit) (api_key repo_path : string)
    (start_date end_date : date_arg) : M unit :=
  let grouped := group_commits_by_date commits in
  here ← get cwd;
  let repo_name := basename (abspath here repo_path) in
  date_str ←
    lift (if date_arg_eqb start_date end_date
          then date_arg_strftime start_date
          else s ← date_arg_strftime start_date;
               e ← date_arg_strftime end_date;
               mret (s +:+ "_to_" +:+ e));
  let report_folder := path_join REPORTS_DIR repo_name in
  makedirs REPORTS_DIR report_folder;;
  let report_file := path_join report_folder (date_str +:+ ".md") in
  let output_lines :=
    ["# Work Summary for " +:+ repo_name +:+ " (" +:+ date_str +:+ ")" +:+ NL] in
  '(output_lines, all_points) ←
    for_each (merge_sort String.le (map fst grouped))
             (analyze_date grouped api_key) (output_lines, []);
  let output := Str.join NL output_lines in
  write_file report_file output;;
  for_each all_points (fun _ point => print ("- " +:+ point)) tt.

Definition load_repo_paths : M (list string) :=
  present ← isfile REPO_LIST_FILE;
  if negb present : bool then mret []
  else
    fs ← get files;
    mret (List.filter (fun line => negb (Str.is_empty line))
            (map Str.strip (readlines (default "" (fs !! REPO_LIST_FILE))))).

Definition save_repo_path (path : string) : M unit :=
  paths ← load_repo_paths;
  if bool_decide (path ∈ paths) then mret tt
  else append_file REPO_LIST_FILE (path +:+ NL).

(** The block that asks for a new path; the script has it twice. *)
Definition enter_new_repo_path : M string :=
  new_path ← input "Enter new repo path: ";
  let new_path := Str.strip new_path in
  ok ← isdir new_path;
  if ok : bool then save_repo_path new_path;; mret new_path
  else print "Invalid directory path.";; sys_exit 1.

Definition prompt_repo_path : M string :=
  paths ← load_repo_paths;
  match paths with
  | _ :: _ =>
      print "Select a repo path:";;
      for_each paths
        (fun idx p => print (pretty idx +:+ ". " +:+ p);; mret (S idx)) 1%nat;;
      print (pretty (length paths + 1)%nat +:+ ". Add new repo path");;
      choice ← input ("Enter choice (1-" +:+ pretty (length paths + 1)%nat +:+ "): ");
      let choice := Str.strip choice in
      try_except
        (choice ← lift (py_int choice);
         if (1 <=? choice)%Z && (choice <=? Z.of_nat (length paths))%Z then
           match paths !! Z.to_nat (choice - 1) with
           | Some p => mret p
           | None => raise IndexError
           end
         else if (choice =? Z.of_nat (length paths) + 1)%Z then
           enter_new_repo_path
         else print "Invalid choice.";; sys_exit 1)
        (fun _ => print "Invalid input.";; sys_exit 1)
  | [] => enter_new_repo_path
  end.

(** [prompt_user], in three blocks: the repository, the choice of the dates
    (lines 194 to 224), the credential (lines 226 to 233). *)
Definition prompt_dates : M (option cal_date * option cal_date) :=
  print "Select analysis type:";;
  print "1. All history";;
  print "2. Specific date";;
  print "3. Date range";;
  print "4. Today";;
  print "5. Yesterday";;
  choice ← input "Enter choice (1/2/3/4/5): ";
  let choice := Str.strip choice in
  if String.eqb choice "2" then
    date_str ← input "Enter date (YYYY-MM-DD): ";
    try_except
      (d ← lift (strptime (Str.strip date_str)); mret (Some d, Some d))
      (fun _ => print "Invalid date format.";; sys_exit 1)
  else if String.eqb choice "3" then
    start_str ← input "Enter start date (YYYY-MM-DD): ";
    end_str ← input "Enter end date (YYYY-MM-DD): ";
    try_except
      (s ← lift (strptime (Str.strip start_str));
       e ← lift (strptime (Str.strip end_str));
       mret (Some s, Some e))
      (fun _ => print "Invalid date format.";; sys_exit 1)
  else if String.eqb choice "4" then
    t ← get today; mret (Some t, Some t)
  else if String.eqb choice "5" then
    t ← get today; y ← lift (day_before t); mret (Some y, Some y)
  else mret (None, None).

Definition prompt_api_key : M string :=
  api_key ← load_dotenv_key "GEMINI_API_KEY";
  api_key ←
    (if falsy api_key then env ← get environ; mret (env !! "GEMINI_API_KEY")
     else mret api_key);
  api_key ←
    (if falsy api_key then
       typed ← input "Enter Gemini API key (or set GEMINI_API_KEY env): ";
       mret (Some (Str.strip typed))
     else mret api_key);
  if falsy api_key then
    print "Gemini API key required for smart summary.";; sys_exit 1
  else mret (default "" api_key).

Definition prompt_user
  : M (string * option cal_date * option cal_date * string) :=
  repo_path ← prompt_repo_path;
  '(start_date, end_date) ← prompt_dates;
  api_key ← prompt_api_key;
  mret (repo_path, start_date, end_date, api_key).

(** The top-level flow once [prompt_user] has returned (lines 238 to 252). *)
Definition run (repo_path : string) (start_date end_date : option cal_date)
    (api_key : string) : M unit :=
  commits ← fetch_commits repo_path;
  match commits with
  | [] => print "No commits found.";; sys_exit 1
  | _ :: _ =>
      filtered_commits ← lift (filter_commits commits start_date end_date);
      match filtered_commits, last filtered_commits with
      | first :: _, Some final =>
          analyze_commits filtered_commits api_key repo_path
            (match start_date with
             | Some d => DateObj d
             | None => DateStr (date first)
             end)
            (match end_date with
             | Some d => DateObj d
             | None => DateStr (date final)
             end)
      | _, _ =>
          print "No commits found for the specified date or range.";;
          sys_exit 0
      end
  end.

Definition main : M unit :=
  '(repo_path, start_date, end_date, api_key) ← prompt_user;
  run repo_path start_date end_date api_key.

End Script.

(** The exit status of the process: 0 at the end of the script, the code of
    [sys.exit], 1 after a traceback. *)
Definition exit_code (r : result unit) : nat :=
  match r with
  | Ok _ => 0
  | Raise (SystemExit code) => code
  | Raise _ => 1
  end.


(** ** The specification's words

    Definitions that follow the specification rather than the script, to
    compare the script with. *)

(** The three fields of a log line: the text up to the first delimiter, the
    text up to the next one, and the rest. *)
Definition line_fields (line : string) : option commit :=
  match Str.partition "|" line with
  | Some (commit_hash, rest) =>
      match Str.partition "|" rest with
      | Some (date, message) => Some (Commit commit_hash date message)
      | None => None
      end
  | None => None
  end.

(** The messages of the commits dated [d], in the order of the log. *)
Definition messages_on (d : string) (commits : list commit) : list string :=
  map message (List.filter (fun c => String.eqb (date c) d) commits).

(** The date string parses as YYYY-MM-DD. *)
Definition parses (s : string) : bool :=
  match strptime s with Ok _ => true | Raise _ => false end.

(** The point of a line with a bullet or dash prefix: the trimmed line is a
    marker followed by white space, and the point is what follows the
    marker, trimmed.  [None] for a line without the prefix. *)
Definition bullet_point (line : string) : option string :=
  match Str.strip line with
  | String marker (String c rest) =>
      if (Ascii.eqb marker "*" || Ascii.eqb marker "-") && Str.is_space c
      then Some (Str.strip (String c rest))
      else None
  | _ => None
  end.



(** The label of a report: the date, or the two dates of a range. *)
Definition date_label (s e : cal_date) : string :=
  if date_eqb s e then strftime s
  else strftime s +:+ "_to_" +:+ strftime e.

(** The path of a report: reports/<repo-name>/<label>.md *)
Definition report_path (repo_name label : string) : string :=
  "reports/" +:+ repo_name +:+ "/" +:+ label +:+ ".md".

(** ** Auxiliary definitions of the proofs *)

(** What the client makes of a reply inside the [try]. *)
Definition read_reply (reply : http_reply) : result pyval :=
  match reply with
  | NoReply reason => Raise (RequestException reason)
  | Reply status body =>
      raise_for_status status;;
      res ← response_json body;
      first_candidate_text res
  end.

(** The summary [summarize_with_gemini] returns for a reply. *)
Definition summary_of (str_exn : exn -> string) (reply : http_reply) : pyval :=
  match read_reply reply with
  | Ok v => v
  | Raise e => PStr (gemini_error str_exn e)
  end.

(** The lines of the report for one date. *)
Definition date_section (date : string) (messages : list string)
    (summary : string) : list string :=
  ["## Date: " +:+ date; "**Summary:** " +:+ summary +:+ NL; "**Messages:**"]
  ++ map (fun msg => "- " +:+ msg) messages ++ [""].

(** The repository paths remembered in the world. *)
Definition known_paths (w : world) : list string :=
  match files w !! REPO_LIST_FILE with
  | Some content =>
      List.filter (fun line => negb (Str.is_empty line))
                  (map Str.strip (readlines content))
  | None => []
  end.

(** The computation ends the process with this exit code. *)
Definition exits {A : Type} (m : M A) (w : world) (code : nat) : Prop :=
  exists w', m w = (Raise (SystemExit code), w').

(** ** A sample world *)

Definition sample_str_exn (e : exn) : string :=
  match e with
  | RequestException reason | SubprocessError reason => reason
  | HTTPError status => "HTTP status " +:+ pretty status
  | _ => "error"
  end.

(** No network. *)
Definition sample_offline (n : nat) (req : request) : http_reply :=
  NoReply "Connection refused".

Definition sample_git (dir : string) : git_outcome :=
  GitOutput ("a1|2024-01-02|fix parser" +:+ NL +:+ "b2|2024-01-01|first commit").

(** A log with a date that is none. *)
Definition sample_git_bad_date (dir : string) : git_outcome :=
  GitOutput ("a1|2024-01-02|fix parser" +:+ NL +:+ "b2|yesterday|oops").

Definition sample_world : world :=
  World ∅ {["/home/me/proj"]} {["GEMINI_API_KEY" := "secret"]} "/home/me"
        (Date 2024 1 2) [] [] [].

(** ** Further definitions of the specification side *)

(** [a <= b] on dates. *)
Definition date_leb (a b : cal_date) : bool := negb (date_ltb b a).

(** The date string names a day between the bounds, both included; an absent
    bound does not bind. *)
Definition in_range (start_date end_date : option cal_date) (date_str : string)
  : bool :=
  match strptime date_str with
  | Ok d =>
      match start_date with Some s => date_leb s d | None => true end
      && match end_date with Some e => date_leb d e | None => true end
  | Raise _ => false
  end.

(** The date string names the day [d]. *)
Definition on_day (d : cal_date) (date_str : string) : bool :=
  match strptime date_str with
  | Ok d' => date_eqb d' d
  | Raise _ => false
  end.

(** The line of the log for a commit, as [git log --pretty=format:%H|%ad|%s]
    prints it. *)
Definition log_line (c : commit) : string :=
  hash c +:+ "|" +:+ date c +:+ "|" +:+ message c.

(** A commit the log can carry: no delimiter in the hash and the date, no
    newline anywhere. *)
Definition loggable (c : commit) : bool :=
  (Str.count "|" (hash c) =? 0)%nat && (Str.count "|" (date c) =? 0)%nat
  && (Str.count LF (hash c) =? 0)%nat && (Str.count LF (date c) =? 0)%nat
  && (Str.count LF (message c) =? 0)%nat.

(** The value a line of the credential file gives to the name: the line is
    no comment, has an equals sign, and the text before the first one,
    trimmed, is the name; the value is the text after it, trimmed of white
    space, then of double quotes, then of single quotes. *)
Definition dotenv_value (key_name line : string) : option string :=
  if Str.startswith "#" (Str.strip line) then None
  else
    match Str.partition "=" (Str.strip line) with
    | Some (k, v) =>
        if String.eqb (Str.strip k) key_name
        then Some (Str.strip_chars "'" (Str.strip_chars DQUOTE (Str.strip v)))
        else None
    | None => None
    end.

(** The text is empty or ends with a newline, as a file of lines does. *)
Definition newline_terminated (content : string) : bool :=
  Str.is_empty content || Str.endswith LF content.

(** Between the two worlds only the console has moved: what was typed and
    what was printed. *)
Definition console_only (w w' : world) : Prop :=
  files w' = files w /\ dirs w' = dirs w /\ environ w' = environ w
  /\ cwd w' = cwd w /\ today w' = today w /\ posts w' = posts w.

(** The summaries of the dates, in the order the loop of [analyze_commits]
    asks for them, when each one is a string: the request for a date carries
    the messages of that date, and is answered by the reply of its rank among
    the requests sent.  [None] when a summary is no string. *)
Fixpoint summaries (str_exn : exn -> string)
    (http_post : nat -> request -> http_reply) (commits : list commit)
    (api_key : string) (dates : list string) (sent : nat)
  : option (list string) :=
  match dates with
  | [] => Some []
  | d :: rest =>
      match summary_of str_exn
              (http_post sent (gemini_request (messages_on d commits) api_key))
      with
      | PStr t =>
          match summaries str_exn http_post commits api_key rest (S sent) with
          | Some ts => Some (t :: ts)
          | None => None
          end
      | _ => None
      end
  end.



(** A service that answers every request with the same two points, and one
    whose answer has a number where the text should be. *)
Definition sample_answer (text : pyval) : pyval :=
  PDict [("candidates",
          PList [PDict [("content",
                         PDict [("parts", PList [PDict [("text", text)]])])]])].
Definition sample_online (n : nat) (req : request) : http_reply :=
  Reply 200 (Some (sample_answer
                     (PStr ("- fixed the parser" +:+ NL +:+ "- wrote tests")))).
Definition sample_numeric (n : nat) (req : request) : http_reply :=
  Reply 200 (Some (sample_answer (PInt 3))).

Definition sample_commits : list commit :=
  [Commit "a1" "2024-01-02" "fix parser";
   Commit "b2" "2024-01-01" "first commit";
   Commit "c3" "2024-01-02" "add tests"].

(** What a run leaves alone: the environment, the working directory and the
    day are the same, every path other than the list of repositories and the
    paths below the reports folder holds what it held, and no file has gone.
    Paths are as the script opens them. *)
Definition footprint (w w' : world) : Prop :=
  environ w' = environ w /\ cwd w' = cwd w /\ today w' = today w
  /\ (forall path,
        path <> REPO_LIST_FILE ->
        String.prefix "reports/" path = false ->
        files w' !! path = files w !! path)
  /\ (forall path, is_Some (files w !! path) -> is_Some (files w' !! path)).

(** The computation keeps to the footprint, returns values in [Q] only and
    raises exceptions in [E] only. *)
Definition behaves {A : Type} (Q : A -> Prop) (E : exn -> Prop) (m : M A)
  : Prop :=
  forall w,
    footprint w (snd (m w))
    /\ match fst (m w) with
       | Ok a => Q a
       | Raise e => E e
       end.

(** The exceptions that end the script. *)
Definition may_escape (e : exn) : bool :=
  match e with
  | SystemExit code => (code <=? 1)%nat
  | EOFError | ValueError | AttributeError | OverflowError => true
  | _ => false
  end.

(** * Properties *)

(** ** The embedding on sample inputs *)

Example strptime_ex1 : strptime "2024-02-29" = Ok (Date 2024 2 29).
Proof. reflexivity. Qed.
Example strptime_ex2 : strptime "2023-02-29" = Raise ValueError.
Proof. reflexivity. Qed.
Example strptime_ex3 : strptime "2024-1- 5" = Ok (Date 2024 1 5).
Proof. reflexivity. Qed.
Example strftime_ex : strftime (Date 2024 1 5) = "2024-01-05".
Proof. reflexivity. Qed.
Example parse_ex :
  parse_log ("abc|2024-01-02|fix a|b" +:+ NL +:+ "junk" +:+ NL +:+ "d|2024-01-01|x" +:+ NL)
  = [Commit "abc" "2024-01-02" "fix a|b"; Commit "d" "2024-01-01" "x"].
Proof. reflexivity. Qed.
Example group_ex :
  group_commits_by_date [Commit "1" "2024-01-02" "a"; Commit "2" "2024-01-01" "b"; Commit "3" "2024-01-02" "c"]
  = [("2024-01-02", ["a"; "c"]); ("2024-01-01", ["b"])].
Proof. reflexivity. Qed.
Example normpath_ex1 : normpath "/home//me/./repo/../proj/" = "/home/me/proj".
Proof. reflexivity. Qed.
Example normpath_ex2 : normpath "../../a/.." = "../..".
Proof. reflexivity. Qed.
Example normpath_ex3 : normpath "/../a" = "/a".
Proof. reflexivity. Qed.
Example abspath_ex : basename (abspath "/home/me" "work/repo/") = "repo".
Proof. reflexivity. Qed.
Example readlines_ex : readlines ("a" +:+ NL +:+ NL +:+ "b") = ["a" +:+ NL; NL; "b"].
Proof. reflexivity. Qed.
Example readlines_ex_cr :
  readlines ("A=1" +:+ String CR "KEY=abc" +:+ String CR NL +:+ "b"
             +:+ String CR "")
  = ["A=1" +:+ NL; "KEY=abc" +:+ NL; "b" +:+ NL].
Proof. reflexivity. Qed.
Example int_ex1 : py_int " 1_000 " = Ok 1000%Z.
Proof. reflexivity. Qed.
Example int_ex2 : py_int "1__0" = Raise ValueError.
Proof. reflexivity. Qed.
Example int_ex3 : py_int "-07" = Ok (-7)%Z.
Proof. reflexivity. Qed.
Example extract_ex1 : extract_task_points ("- did X" +:+ NL +:+ "- did Y" +:+ NL +:+ "note") = ["did X"; "did Y"].
Proof. reflexivity. Qed.
Example extract_ex2 : extract_task_points "just prose" = ["just prose"].
Proof. reflexivity. Qed.
Example extract_ex3 : extract_task_points "" = [].
Proof. reflexivity. Qed.
Example extract_ex4 : extract_task_points "  " = [].
Proof. reflexivity. Qed.
Example extract_ex5 : extract_task_points "-- x" = ["-- x"].
Proof. reflexivity. Qed.

(** ** Strings *)

Lemma append_cons (c : ascii) (a b : string) :
  String c a +:+ b = String c (a +:+ b).
Proof. reflexivity. Qed.

Lemma append_empty_l (b : string) : "" +:+ b = b.
Proof. reflexivity. Qed.

Lemma append_assoc (a b c : string) : (a +:+ b) +:+ c = a +:+ b +:+ c.
Proof.
  induction a as [|x a IH]; [done|]. rewrite !append_cons. by rewrite IH.
Qed.

Lemma count_append (c : ascii) (a b : string) :
  Str.count c (a +:+ b) = Str.count c a + Str.count c b.
Proof.
  induction a as [|x a IH]; [reflexivity|].
  rewrite append_cons. cbn [Str.count]. rewrite IH. lia.
Qed.

(** Up to the first separator [partition] returns what was joined. *)
Lemma partition_append (sep : ascii) (a b : string) :
  Str.count sep a = 0 ->
  Str.partition sep (a +:+ String sep b) = Some (a, b).
Proof.
  induction a as [|x a IH]; intros Hcount.
  - rewrite append_empty_l. cbn [Str.partition]. by rewrite Ascii.eqb_refl.
  - rewrite append_cons. cbn [Str.partition Str.count] in *.
    destruct (Ascii.eqb x sep); [discriminate|].
    by rewrite IH.
Qed.

Lemma partition_Some (sep : ascii) (s a b : string) :
  Str.partition sep s = Some (a, b) ->
  s = a +:+ String sep b /\ Str.count sep a = 0.
Proof.
  revert a. induction s as [|x s IH]; intros a; cbn [Str.partition]; [done|].
  destruct (Ascii.eqb x sep) eqn:Hx.
  - apply Ascii.eqb_eq in Hx as ->. intros [= <- <-]. done.
  - destruct (Str.partition sep s) as [[a' b']|]; [|done].
    intros [= <- <-]. destruct (IH a' eq_refl) as [-> Hc].
    split; [done|]. cbn [Str.count]. by rewrite Hx.
Qed.

Lemma partition_None (sep : ascii) (s : string) :
  Str.partition sep s = None <-> Str.count sep s = 0.
Proof.
  induction s as [|x s IH]; cbn [Str.partition Str.count]; [done|].
  destruct (Ascii.eqb x sep); [done|].
  destruct (Str.partition sep s) as [[a b]|].
  - split; [done|]. intros H. apply IH in H. done.
  - split; [|done]. intros _. by apply IH.
Qed.

Lemma count_partition (sep : ascii) (s a b : string) :
  Str.partition sep s = Some (a, b) ->
  Str.count sep s = S (Str.count sep b).
Proof.
  intros [-> Ha]%partition_Some.
  rewrite count_append, Ha. cbn [Str.count]. by rewrite Ascii.eqb_refl.
Qed.

(** Stripping leaves nothing only of a string made of stripped characters. *)
Lemma rstrip_by_empty (p : ascii -> bool) (c : ascii) (s : string) :
  p c = false -> Str.rstrip_by p (String c s) <> "".
Proof.
  intros Hc. cbn [Str.rstrip_by]. rewrite Hc.
  by destruct (Str.rstrip_by p s).
Qed.

Lemma strip_by_empty (p : ascii -> bool) (c : ascii) (s : string) :
  Str.strip_by p s = "" -> p c = false -> Str.count c s = 0.
Proof.
  unfold Str.strip_by. intros Hs Hc.
  induction s as [|x s IH]; [done|].
  cbn [Str.lstrip_by Str.count] in *.
  destruct (p x) eqn:Hx.
  - destruct (Ascii.eqb x c) eqn:Hxc; [|by apply IH].
    apply Ascii.eqb_eq in Hxc as ->. congruence.
  - by apply rstrip_by_empty in Hs.
Qed.

Lemma strip_keeps_pipes (line : string) :
  Str.count "|" line <> 0 -> Str.is_empty (Str.strip line) = false.
Proof.
  intros Hn. destruct (Str.strip line) eqn:Hs; [|done].
  exfalso. apply Hn. by eapply strip_by_empty.
Qed.

(** ** The commit parser *)

Lemma line_fields_few (line : string) :
  Str.count "|" line < 2 -> line_fields line = None.
Proof.
  unfold line_fields. intros Hlt.
  destruct (Str.partition "|" line) as [[h rest]|] eqn:H1; [|done].
  apply count_partition in H1.
  destruct (Str.partition "|" rest) as [[d m]|] eqn:H2; [|done].
  apply count_partition in H2. lia.
Qed.

Lemma line_fields_many (line : string) :
  2 <= Str.count "|" line ->
  exists h d m,
    line = h +:+ "|" +:+ d +:+ "|" +:+ m
    /\ Str.count "|" h = 0 /\ Str.count "|" d = 0
    /\ line_fields line = Some (Commit h d m).
Proof.
  unfold line_fields. intros Hge.
  destruct (Str.partition "|" line) as [[h rest]|] eqn:H1.
  - pose proof (count_partition _ _ _ _ H1) as Hc1.
    destruct (Str.partition "|" rest) as [[d m]|] eqn:H2.
    + apply partition_Some in H1 as [-> Hh], H2 as [-> Hd].
      by exists h, d, m.
    + apply partition_None in H2. lia.
  - apply partition_None in H1. lia.
Qed.

(** One turn of the loop adds the fields of the line, when it has them. *)
Lemma parse_log_line_fields (commits : list commit) (line : string) :
  parse_log_line commits line
  = commits ++ match line_fields line with Some c => [c] | None => [] end.
Proof.
  unfold parse_log_line, line_fields. cbn [Str.split_max].
  destruct (Str.partition "|" line) as [[h rest]|] eqn:H1.
  - rewrite strip_keeps_pipes
      by (rewrite (count_partition _ _ _ _ H1); lia).
    destruct (Str.partition "|" rest) as [[d m]|]; [done|].
    by rewrite app_nil_r.
  - rewrite app_nil_r. by destruct (Str.is_empty _).
Qed.

Lemma omap_cons {A B : Type} (f : A -> option B) (x : A) (l : list A) :
  omap f (x :: l)
  = match f x with Some y => y :: omap f l | None => omap f l end.
Proof. reflexivity. Qed.

Lemma parse_log_lines_from (lines : list string) (commits : list commit) :
  fold_left parse_log_line lines commits = commits ++ omap line_fields lines.
Proof.
  revert commits. induction lines as [|line lines IH]; intros commits.
  - by rewrite app_nil_r.
  - cbn [fold_left]. rewrite IH, parse_log_line_fields, <- app_assoc.
    rewrite omap_cons. by destruct (line_fields line).
Qed.

Lemma parse_log_lines_omap (lines : list string) :
  parse_log_lines lines = omap line_fields lines.
Proof. apply parse_log_lines_from. Qed.

Lemma omap_line_fields_filter (lines : list string) :
  omap line_fields lines
  = omap line_fields
      (List.filter (fun l => (2 <=? Str.count "|" l)%nat) lines).
Proof.
  induction lines as [|line lines IH]; [done|].
  cbn [List.filter].
  destruct (Nat.leb_spec 2 (Str.count "|" line)) as [Hge|Hlt].
  - by rewrite !omap_cons, IH.
  - by rewrite omap_cons, line_fields_few.
Qed.

Lemma split_single (sep : ascii) (s : string) :
  Str.count sep s = 0 -> Str.split sep s = [s].
Proof.
  induction s as [|c s IH]; [done|]. cbn [Str.count Str.split].
  destruct (Ascii.eqb c sep); [done|]. intros Hs. by rewrite IH.
Qed.

Lemma split_append (sep : ascii) (a b : string) :
  Str.count sep a = 0 ->
  Str.split sep (a +:+ String sep b) = a :: Str.split sep b.
Proof.
  induction a as [|c a IH]; intros Ha.
  - rewrite append_empty_l. cbn [Str.split]. by rewrite Ascii.eqb_refl.
  - rewrite append_cons. cbn [Str.count Str.split] in *.
    destruct (Ascii.eqb c sep); [done|]. by rewrite IH.
Qed.

(** Splitting the output at the newlines gives back the lines it was made
    of. *)
Lemma split_join_lines (lines : list string) :
  lines <> [] ->
  Forall (fun line => Str.count LF line = 0) lines ->
  Str.split LF (Str.join NL lines) = lines.
Proof.
  intros Hsome Hlines.
  induction Hlines as [|line lines Hline Hlines IH]; [done|].
  destruct lines as [|line' lines].
  - by apply split_single.
  - change (Str.join NL (line :: line' :: lines))
      with (line +:+ String LF (Str.join NL (line' :: lines))).
    rewrite split_append by done. by rewrite IH.
Qed.

(** The log as the parser sees it: an output without white space at its
    ends is parsed line by line. *)
Lemma parse_log_of_lines (lines : list string) :
  lines <> [] ->
  Forall (fun line => Str.count LF line = 0) lines ->
  Str.strip (Str.join NL lines) = Str.join NL lines ->
  parse_log (Str.join NL lines) = parse_log_lines lines.
Proof.
  intros Hsome Hlines Hstrip. unfold parse_log.
  by rewrite Hstrip, split_join_lines.
Qed.

(** C1, as the script has it: a line with fewer than two delimiters is
    dropped, a line with two or more is kept, its message being all that
    follows the second delimiter; the lines are parsed one by one, so the
    result is the parse of the lines with at least two delimiters, in
    order. *)
Theorem parse_log_lines_two_or_more (lines : list string) :
  parse_log_lines lines = omap line_fields lines
  /\ parse_log_lines lines
     = parse_log_lines (List.filter (fun l => (2 <=? Str.count "|" l)%nat) lines)
  /\ forall line,
       (Str.count "|" line < 2 -> parse_log_lines [line] = [])
       /\ (2 <= Str.count "|" line ->
           exists h d m,
             line = h +:+ "|" +:+ d +:+ "|" +:+ m
             /\ Str.count "|" h = 0 /\ Str.count "|" d = 0
             /\ parse_log_lines [line] = [Commit h d m]).
Proof.
  split; [apply parse_log_lines_omap|]. split.
  - rewrite !parse_log_lines_omap. apply omap_line_fields_filter.
  - intros line. rewrite parse_log_lines_omap, omap_cons. split.
    + intros Hlt. by rewrite line_fields_few.
    + intros Hge.
      destruct (line_fields_many line Hge) as (h & d & m & ? & ? & ? & Hf).
      exists h, d, m. by rewrite Hf.
Qed.

(** C1 as stated fails: a line with three delimiters is kept. *)
Lemma parse_log_lines_three_delimiters :
  Str.count "|" "h|2024-01-05|a|b" = 3
  /\ parse_log_lines ["h|2024-01-05|a|b"] = [Commit "h" "2024-01-05" "a|b"]
  /\ parse_log_lines ["h|2024-01-05|a|b"]
     <> parse_log_lines
          (List.filter (fun l => (Str.count "|" l =? 2)%nat) ["h|2024-01-05|a|b"]).
Proof. split; [reflexivity|]. split; [reflexivity|]. discriminate. Qed.



(** ** Grouping by date *)

Lemma dict_get_append (g : list (string * list string)) (k msg d : string) :
  dict_get (dict_append g k msg) d
  = if String.eqb k d then Some (default [] (dict_get g d) ++ [msg])
    else dict_get g d.
Proof.
  induction g as [|[k' v] g IH]; cbn [dict_append dict_get].
  - by destruct (String.eqb k d).
  - destruct (String.eqb k' k) eqn:Hk'; cbn [dict_get].
    + apply String.eqb_eq in Hk' as ->.
      by destruct (String.eqb k d).
    + destruct (String.eqb k' d) eqn:Hd; [|done].
      apply String.eqb_eq in Hd as ->.
      rewrite String.eqb_sym in Hk'. by rewrite Hk'.
Qed.

Lemma dict_append_keys (g : list (string * list string)) (k msg : string) :
  map fst (dict_append g k msg)
  = if bool_decide (k ∈ map fst g) then map fst g else map fst g ++ [k].
Proof.
  induction g as [|[k' v] g IH]; [done|].
  cbn [dict_append map fst].
  destruct (String.eqb k' k) eqn:Hk'.
  - apply String.eqb_eq in Hk' as ->.
    by rewrite bool_decide_eq_true_2 by apply list_elem_of_here.
  - apply String.eqb_neq in Hk'. cbn [map fst]. rewrite IH.
    destruct (bool_decide (k ∈ map fst g)) eqn:Hin.
    + apply bool_decide_eq_true in Hin.
      by rewrite bool_decide_eq_true_2 by by apply list_elem_of_further.
    + apply bool_decide_eq_false in Hin.
      rewrite bool_decide_eq_false_2; [done|].
      intros [?|?]%elem_of_cons; congruence.
Qed.

Lemma dict_append_NoDup (g : list (string * list string)) (k msg : string) :
  NoDup (map fst g) -> NoDup (map fst (dict_append g k msg)).
Proof.
  intros Hnd. rewrite dict_append_keys.
  destruct (bool_decide (k ∈ map fst g)) eqn:Hin; [done|].
  apply bool_decide_eq_false in Hin.
  apply NoDup_app. split; [done|]. split; [|apply NoDup_singleton].
  intros x Hx ->%list_elem_of_singleton. done.
Qed.

Lemma group_from_NoDup (commits : list commit) (g : list (string * list string)) :
  NoDup (map fst g) ->
  NoDup (map fst (fold_left
                    (fun grouped c => dict_append grouped (date c) (message c))
                    commits g)).
Proof.
  revert g. induction commits as [|c commits IH]; intros g Hg; [done|].
  cbn [fold_left]. by apply IH, dict_append_NoDup.
Qed.

Lemma group_from_get (commits : list commit) (g : list (string * list string))
    (d : string) :
  dict_get (fold_left
              (fun grouped c => dict_append grouped (date c) (message c))
              commits g) d
  = match dict_get g d, messages_on d commits with
    | None, [] => None
    | found, ms => Some (default [] found ++ ms)
    end.
Proof.
  revert g. induction commits as [|c commits IH]; intros g.
  - cbn [fold_left messages_on List.filter map].
    destruct (dict_get g d); [|done]. cbn. by rewrite app_nil_r.
  - cbn [fold_left]. rewrite IH, dict_get_append.
    unfold messages_on. cbn [List.filter].
    destruct (String.eqb (date c) d); cbn [map].
    + destruct (dict_get g d) as [v|]; simpl;
        [by rewrite <- app_assoc | done].
    + done.
Qed.

(** C5: on the three dates of the specification the result has the two
    keys, and the group of "2024-01-02" holds its two messages in the order
    of the input; in general the keys are distinct and each date's group is
    the messages of that date in the order of the input. *)
Theorem group_commits_by_date_stable :
  (forall h1 h2 h3 m1 m2 m3 : string,
     group_commits_by_date
       [Commit h1 "2024-01-02" m1; Commit h2 "2024-01-01" m2;
        Commit h3 "2024-01-02" m3]
     = [("2024-01-02", [m1; m3]); ("2024-01-01", [m2])])
  /\ forall commits : list commit,
       NoDup (map fst (group_commits_by_date commits))
       /\ forall d : string,
            dict_get (group_commits_by_date commits) d
            = match messages_on d commits with
              | [] => None
              | ms => Some ms
              end.
Proof.
  split; [reflexivity|]. intros commits. split.
  - apply group_from_NoDup. constructor.
  - intros d. unfold group_commits_by_date. rewrite group_from_get.
    simpl. by destruct (messages_on d commits).
Qed.

(** ** Filtering by date *)

Lemma date_ltb_lt (a b : cal_date) :
  date_ltb a b = true
  <-> (year a < year b
       \/ year a = year b
          /\ (month a < month b \/ month a = month b /\ day a < day b))%Z.
Proof.
  unfold date_ltb.
  rewrite orb_true_iff, andb_true_iff, orb_true_iff, andb_true_iff.
  rewrite !Z.ltb_lt, !Z.eqb_eq. done.
Qed.

(** An empty range lets no date through. *)
Lemma date_ltb_between (s e d : cal_date) :
  date_ltb e s = true -> date_ltb d s = false -> date_ltb e d = true.
Proof.
  intros Hes Hds. apply date_ltb_lt. apply date_ltb_lt in Hes.
  assert (~ (year d < year s
             \/ year d = year s
                /\ (month d < month s \/ month d = month s /\ day d < day s))%Z)
    as Hn by (rewrite <- date_ltb_lt; congruence).
  lia.
Qed.

Lemma strptime_raises (s : string) (e : exn) :
  strptime s = Raise e -> e = ValueError.
Proof.
  unfold strptime. intros H.
  repeat match type of H with
         | match ?x with _ => _ end = _ => destruct x
         | (if ?x then _ else _) = _ => destruct x
         end; congruence.
Qed.

Lemma parses_false (s : string) :
  parses s = false <-> strptime s = Raise ValueError.
Proof.
  unfold parses. destruct (strptime s) as [d|e] eqn:H.
  - split; discriminate.
  - apply strptime_raises in H as ->. done.
Qed.

Lemma filter_from_raise (s e : option cal_date) (commits : list commit)
    (x : exn) :
  fold_left (filter_step s e) commits (Raise x) = Raise x.
Proof. induction commits as [|c commits IH]; [done|]. apply IH. Qed.

Lemma filter_from_no_bounds (commits filtered : list commit) :
  forallb (fun c => parses (date c)) commits = true ->
  fold_left (filter_step None None) commits (Ok filtered)
  = Ok (filtered ++ commits).
Proof.
  revert filtered. induction commits as [|c commits IH]; intros filtered Hall.
  - by rewrite app_nil_r.
  - cbn [forallb] in Hall. apply andb_true_iff in Hall as [Hc Hall].
    cbn [fold_left filter_step]. unfold parses in Hc.
    destruct (strptime (date c)); [|done].
    rewrite IH by done. by rewrite <- app_assoc.
Qed.

Lemma filter_from_empty_range (s e : cal_date) (commits filtered : list commit) :
  date_ltb e s = true ->
  forallb (fun c => parses (date c)) commits = true ->
  fold_left (filter_step (Some s) (Some e)) commits (Ok filtered) = Ok filtered.
Proof.
  intros Hes. induction commits as [|c commits IH]; intros Hall; [done|].
  cbn [forallb] in Hall. apply andb_true_iff in Hall as [Hc Hall].
  cbn [fold_left filter_step]. unfold parses in Hc.
  destruct (strptime (date c)) as [d|]; [|done].
  destruct (date_ltb d s) eqn:Hds; [by apply IH|].
  rewrite (date_ltb_between s e d) by done. by apply IH.
Qed.

Lemma filter_from_unparsable (s e : option cal_date) (commits filtered : list commit) :
  existsb (fun c => negb (parses (date c))) commits = true ->
  fold_left (filter_step s e) commits (Ok filtered) = Raise ValueError.
Proof.
  revert filtered. induction commits as [|c commits IH]; intros filtered Hex.
  - done.
  - cbn [existsb] in Hex. cbn [fold_left filter_step].
    destruct (parses (date c)) eqn:Hc.
    + unfold parses in Hc. destruct (strptime (date c)); [|done].
      cbn [negb orb] in Hex.
      repeat match goal with |- context [if ?b then _ else _] => destruct b end;
        by apply IH.
    + apply parses_false in Hc. rewrite Hc. apply filter_from_raise.
Qed.

Lemma not_all_parse (commits : list commit) :
  forallb (fun c => parses (date c)) commits = false ->
  existsb (fun c => negb (parses (date c))) commits = true.
Proof.
  induction commits as [|c commits IH]; [done|]. cbn [forallb existsb].
  destruct (parses (date c)); [exact IH|done].
Qed.

(** Without bounds the filter returns the list, or raises at a date. *)
Lemma filter_commits_no_bounds (commits : list commit) :
  filter_commits commits None None
  = if forallb (fun c => parses (date c)) commits then Ok commits
    else Raise ValueError.
Proof.
  unfold filter_commits.
  destruct (forallb _ commits) eqn:Hall.
  - by rewrite filter_from_no_bounds.
  - by rewrite filter_from_unparsable by by apply not_all_parse.
Qed.

(** C3: when every date parses, filtering without bounds returns the list as
    it is, and filtering with a start after the end returns the empty list. *)
Theorem filter_commits_bounds (commits : list commit) :
  forallb (fun c => parses (date c)) commits = true ->
  filter_commits commits None None = Ok commits
  /\ forall s e : cal_date,
       date_ltb e s = true ->
       filter_commits commits (Some s) (Some e) = Ok [].
Proof.
  intros Hall. split.
  - unfold filter_commits. by rewrite filter_from_no_bounds.
  - intros s e Hes. unfold filter_commits. by apply filter_from_empty_range.
Qed.

Lemma filter_commits_bounds_witness :
  filter_commits
    [Commit "a" "2024-01-02" "x"; Commit "b" "2024-01-01" "y"] None None
  = Ok [Commit "a" "2024-01-02" "x"; Commit "b" "2024-01-01" "y"]
  /\ forall s e : cal_date,
       date_ltb e s = true ->
       filter_commits
         [Commit "a" "2024-01-02" "x"; Commit "b" "2024-01-01" "y"]
         (Some s) (Some e) = Ok [].
Proof.
  apply (filter_commits_bounds
           [Commit "a" "2024-01-02" "x"; Commit "b" "2024-01-01" "y"]).
  reflexivity.
Defined.

(** ** Task points *)

Lemma fold_left_omap {A B : Type} (f : A -> option B) (xs : list A)
    (acc : list B) :
  fold_left (fun acc x => match f x with Some y => acc ++ [y] | None => acc end)
            xs acc
  = acc ++ omap f xs.
Proof.
  revert acc. induction xs as [|x xs IH]; intros acc.
  - by rewrite app_nil_r.
  - cbn [fold_left]. rewrite IH, omap_cons.
    destruct (f x); [by rewrite <- app_assoc | done].
Qed.

Lemma fold_left_step_ext {A B : Type} (f g : B -> A -> B) (xs : list A)
    (acc : B) :
  (forall acc x, f acc x = g acc x) -> fold_left f xs acc = fold_left g xs acc.
Proof.
  intros Hfg. revert acc.
  induction xs as [|x xs IH]; intros acc; [done|].
  cbn [fold_left]. by rewrite Hfg, IH.
Qed.

Lemma space_is_no_marker (c : ascii) :
  Str.is_space c = true -> Str.mem c "*-" = false.
Proof.
  intros Hc. cbn [Str.mem].
  destruct (Ascii.eqb_spec c "*") as [->|_]; [discriminate|].
  destruct (Ascii.eqb_spec c "-") as [->|_]; [discriminate|].
  done.
Qed.

(** On a line that matches, [lstrip('*-')] takes off the marker alone. *)
Lemma lstrip_marker (marker c : ascii) (rest : string) :
  (Ascii.eqb marker "*" || Ascii.eqb marker "-") && Str.is_space c = true ->
  Str.lstrip_chars "*-" (String marker (String c rest)) = String c rest.
Proof.
  intros [Hm Hc]%andb_true_iff.
  unfold Str.lstrip_chars. cbn [Str.lstrip_by].
  rewrite (space_is_no_marker c Hc).
  replace (Str.mem marker "*-") with true; [done|].
  cbn [Str.mem]. by rewrite orb_false_r.
Qed.

Lemma extract_step (points : list string) (line : string) :
  (if bullet_match (Str.strip line)
   then points ++ [Str.strip (Str.lstrip_chars "*-" (Str.strip line))]
   else points)
  = match bullet_point line with
    | Some point => points ++ [point]
    | None => points
    end.
Proof.
  unfold bullet_point, bullet_match.
  destruct (Str.strip line) as [|marker [|c rest]]; [done..|].
  destruct ((Ascii.eqb marker "*" || Ascii.eqb marker "-") && Str.is_space c)
    eqn:Hmatch; [|done].
  by rewrite lstrip_marker.
Qed.

(** C6, as the script has it: the three examples, and in general the points
    are those of the lines with a bullet or dash prefix; when there is none
    the whole trimmed summary is the one point, unless it is empty once
    trimmed. *)
Theorem extract_task_points_spec :
  extract_task_points ("- did X" +:+ NL +:+ "- did Y" +:+ NL +:+ "note")
  = ["did X"; "did Y"]
  /\ extract_task_points "just prose" = ["just prose"]
  /\ extract_task_points "" = []
  /\ forall summary : string,
       extract_task_points summary
       = match omap bullet_point (Str.splitlines summary) with
         | [] =>
             if Str.is_empty (Str.strip summary) then []
             else [Str.strip summary]
         | points => points
         end.
Proof.
  split; [reflexivity|]. split; [reflexivity|]. split; [reflexivity|].
  intros summary. unfold extract_task_points.
  rewrite (fold_left_step_ext _
    (fun points line => match bullet_point line with
                        | Some point => points ++ [point]
                        | None => points
                        end)) by (intros; apply extract_step).
  rewrite fold_left_omap. cbn [app].
  destruct (omap bullet_point (Str.splitlines summary)); [|done].
  by destruct (Str.is_empty (Str.strip summary)).
Qed.

(** C6 as stated fails: a summary of white space is not empty and has no
    line with the prefix, and gives no point. *)
Lemma extract_task_points_blank :
  " " <> ""
  /\ omap bullet_point (Str.splitlines " ") = []
  /\ extract_task_points " " = []
  /\ extract_task_points " " <> [Str.strip " "].
Proof. split; [done|]. split; [reflexivity|]. split; [reflexivity|]. done. Qed.

(** ** The summarizer client *)

(** Steps of the proofs about computations: enter the first bind, or unfold
    every operation of the monad. *)
Ltac bind_step := unfold mbind at 1, M_bind at 1.
Ltac unfold_monad :=
  unfold mbind, M_bind, mret, M_ret, get, modify, lift, sys_exit, raise;
  cbn beta iota.

Section ScriptProperties.

Variable str_exn : exn -> string.
Variable http_post : nat -> request -> http_reply.
Variable git_log : string -> git_outcome.

Lemma first_candidate_text_Exception (res : pyval) (e : exn) :
  first_candidate_text res = Raise e -> is_Exception e = true.
Proof.
  unfold first_candidate_text, py_contains, getitem, getitem0.
  unfold mbind, result_bind, mret, result_ret. intros H.
  repeat (case_match; simplify_eq; try done).
Qed.

Lemma read_reply_Exception (reply : http_reply) (e : exn) :
  read_reply reply = Raise e -> is_Exception e = true.
Proof.
  destruct reply as [reason|status body]; cbn [read_reply].
  - by intros [= <-].
  - unfold raise_for_status, response_json, mbind, result_bind.
    destruct ((400 <=? status)%nat && (status <? 600)%nat);
      [by intros [= <-]|].
    destruct body as [res|]; [|by intros [= <-]].
    apply first_candidate_text_Exception.
Qed.

(** The summarizer sends one request and returns a value, whatever the
    reply. *)
Lemma summarize_eq (messages : list string) (api_key : string) (w : world) :
  summarize_with_gemini str_exn http_post messages api_key w
  = (Ok (summary_of str_exn
           (http_post (length (posts w)) (gemini_request messages api_key))),
     set_posts (posts w ++ [gemini_request messages api_key]) w).
Proof.
  unfold summarize_with_gemini, try_except, requests_post, summary_of.
  unfold_monad.
  pose proof (read_reply_Exception
                (http_post (length (posts w)) (gemini_request messages api_key)))
    as Hexn.
  destruct (http_post _ _) as [reason|status body]; cbn [read_reply] in *.
  - done.
  - unfold mbind, result_bind in *.
    destruct (raise_for_status status) as [[]|e1]; [|by rewrite Hexn].
    destruct (response_json body) as [res|e2]; [|by rewrite Hexn].
    destruct (first_candidate_text res) as [v|e3]; [done|by rewrite Hexn].
Qed.

(** ** The report writer *)

Lemma fold_left_bullets (messages lines : list string) :
  fold_left (fun lines msg => lines ++ ["- " +:+ msg]) messages lines
  = lines ++ map (fun msg => "- " +:+ msg) messages.
Proof.
  revert lines. induction messages as [|msg messages IH]; intros lines.
  - by rewrite app_nil_r.
  - cbn [fold_left map]. by rewrite IH, <- app_assoc.
Qed.

(** One turn of the loop: one request more, and the section of the date
    with the summary returned, when it is a string. *)
Lemma analyze_date_eq (grouped : list (string * list string))
    (api_key : string) (lines points : list string) (d : string) (w : world) :
  let messages := default [] (dict_get grouped d) in
  analyze_date str_exn http_post grouped api_key (lines, points) d w
  = (match summary_of str_exn
             (http_post (length (posts w)) (gemini_request messages api_key))
     with
     | PStr summary =>
         Ok (lines ++ date_section d messages summary,
             points ++ extract_task_points summary)
     | _ => Raise AttributeError
     end,
     set_posts (posts w ++ [gemini_request messages api_key]) w).
Proof.
  intros messages. unfold analyze_date, mbind, M_bind.
  fold messages. rewrite summarize_eq.
  destruct (summary_of _ _); try done.
  unfold mret, M_ret, date_section. rewrite fold_left_bullets.
  by rewrite <- !app_assoc.
Qed.

(** The loop changes nothing of the world but the requests sent. *)
Lemma loop_world (grouped : list (string * list string)) (api_key : string)
    (dates : list string) (acc : list string * list string) (w : world) :
  exists sent,
    snd (for_each dates (analyze_date str_exn http_post grouped api_key) acc w)
    = set_posts sent w.
Proof.
  revert acc w. induction dates as [|d dates IH]; intros [lines points] w.
  - exists (posts w). by destruct w.
  - cbn [for_each]. unfold mbind, M_bind. rewrite analyze_date_eq.
    destruct (summary_of _ _); try by eexists.
    edestruct IH as [sent ->]. by eexists.
Qed.

(** The loop reads nothing of the world but the number of requests sent. *)
Lemma loop_posts_only (grouped : list (string * list string)) (api_key : string)
    (dates : list string) (acc : list string * list string) (w1 w2 : world) :
  posts w1 = posts w2 ->
  fst (for_each dates (analyze_date str_exn http_post grouped api_key) acc w1)
  = fst (for_each dates (analyze_date str_exn http_post grouped api_key) acc w2)
  /\ posts (snd (for_each dates
                   (analyze_date str_exn http_post grouped api_key) acc w1))
     = posts (snd (for_each dates
                     (analyze_date str_exn http_post grouped api_key) acc w2)).
Proof.
  revert acc w1 w2.
  induction dates as [|d dates IH]; intros [lines points] w1 w2 Hposts.
  - done.
  - cbn [for_each]. unfold mbind, M_bind. rewrite !analyze_date_eq.
    rewrite Hposts. destruct (summary_of _ _); try done.
    by apply IH.
Qed.

Lemma print_points (points : list string) (w : world) :
  for_each points (fun _ point => print ("- " +:+ point)) tt w
  = (Ok tt, set_stdout (stdout w ++ map (fun p => "- " +:+ p) points) w).
Proof.
  revert w. induction points as [|point points IH]; intros w.
  - cbn. rewrite app_nil_r. by destruct w.
  - cbn [for_each map]. unfold mbind, M_bind, print, modify.
    rewrite IH. cbn. by rewrite <- app_assoc.
Qed.

(** [analyze_commits] on two date objects: the folder is made, the loop
    runs, and if it ends the report is written and the points printed. *)
Lemma analyze_commits_eq (commits : list commit) (api_key repo_path : string)
    (s e : cal_date) (w : world) :
  let grouped := group_commits_by_date commits in
  let repo_name := basename (abspath (cwd w) repo_path) in
  let label := date_label s e in
  let folder := path_join REPORTS_DIR repo_name in
  let header :=
    ["# Work Summary for " +:+ repo_name +:+ " (" +:+ label +:+ ")" +:+ NL] in
  analyze_commits str_exn http_post commits api_key repo_path
    (DateObj s) (DateObj e) w
  = match for_each (merge_sort String.le (map fst grouped))
            (analyze_date str_exn http_post grouped api_key) (header, [])
            (set_dirs ({[REPORTS_DIR; folder]} ∪ dirs w) w)
    with
    | (Ok (lines, points), w') =>
        (Ok tt,
         set_stdout (stdout w' ++ map (fun p => "- " +:+ p) points)
           (set_files (<[path_join folder (label +:+ ".md")
                         := Str.join NL lines]> (files w')) w'))
    | (Raise x, w') => (Raise x, w')
    end.
Proof.
  intros grouped repo_name label folder header.
  unfold analyze_commits, mbind at 1, M_bind at 1. cbn [get].
  fold grouped repo_name.
  assert ((if date_arg_eqb (DateObj s) (DateObj e)
           then date_arg_strftime (DateObj s)
           else s0 ← date_arg_strftime (DateObj s);
                e0 ← date_arg_strftime (DateObj e);
                mret (s0 +:+ "_to_" +:+ e0)) = Ok label) as Hlabel.
  { unfold label, date_label. cbn. by destruct (date_eqb s e). }
  unfold mbind at 1, M_bind at 1, lift at 1. rewrite Hlabel.
  unfold mbind at 1, M_bind at 1, makedirs, modify.
  fold folder header.
  bind_step.
  destruct (for_each _ _ _ _) as [[[lines points]|x] w']; [|done].
  unfold mbind, M_bind, write_file, modify. by rewrite print_points.
Qed.

(** ** The path of the report *)

Lemma split_no_sep (sep : ascii) (s field : string) :
  field ∈ Str.split sep s -> Str.count sep field = 0.
Proof.
  revert field. induction s as [|c s IH]; intros field; cbn [Str.split].
  - by intros ->%list_elem_of_singleton.
  - destruct (Ascii.eqb c sep) eqn:Hc.
    + intros [->|Hin]%elem_of_cons; [done|by apply IH].
    + destruct (Str.split sep s) as [|first fields].
      * intros ->%list_elem_of_singleton. cbn [Str.count]. by rewrite Hc.
      * intros [->|Hin]%elem_of_cons.
        -- cbn [Str.count]. rewrite Hc. apply IH, list_elem_of_here.
        -- by apply IH, list_elem_of_further.
Qed.

Lemma basename_no_slash (p : string) : Str.count "/" (basename p) = 0.
Proof.
  unfold basename. destruct (last (Str.split "/" p)) as [name|] eqn:Hlast.
  - apply (split_no_sep "/" p), list_elem_of_lookup.
    rewrite last_lookup in Hlast. eauto.
  - done.
Qed.

Lemma startswith_count (c : ascii) (s : string) :
  Str.count c s = 0 -> Str.startswith c s = false.
Proof.
  destruct s as [|a s]; [done|]. cbn [Str.count Str.startswith].
  by destruct (Ascii.eqb a c).
Qed.

Lemma endswith_count (c : ascii) (s : string) :
  Str.count c s = 0 -> Str.endswith c s = false.
Proof.
  induction s as [|a s IH]; [done|]. cbn [Str.count Str.endswith].
  destruct (Ascii.eqb a c); [done|]. intros Hs. destruct s; [done|by apply IH].
Qed.

Lemma endswith_append (c : ascii) (a b : string) :
  b <> "" -> Str.endswith c (a +:+ b) = Str.endswith c b.
Proof.
  intros Hb. induction a as [|x a IH]; [done|].
  rewrite append_cons. cbn [Str.endswith]. rewrite IH.
  destruct (a +:+ b) eqn:Hab; [|done].
  destruct a; [|done]. by rewrite append_empty_l in Hab.
Qed.

Lemma digit_char_not_slash (n : Z) : Ascii.eqb (digit_char n) "/" = false.
Proof.
  apply Ascii.eqb_neq. unfold digit_char. intros Heq.
  apply (f_equal N_of_ascii) in Heq.
  rewrite N_ascii_embedding in Heq.
  - cbn in Heq. lia.
  - pose proof (Z.mod_pos_bound n 10). lia.
Qed.

Lemma date_label_no_slash (s e : cal_date) (rest : string) :
  Str.startswith "/" (date_label s e +:+ rest) = false.
Proof.
  unfold date_label.
  destruct (date_eqb s e); cbn; apply digit_char_not_slash.
Qed.

(** The file of the report, as the two [os.path.join] build it. *)
Lemma report_file_path (repo_name file_name : string) :
  Str.count "/" repo_name = 0 ->
  Str.startswith "/" file_name = false ->
  path_join (path_join REPORTS_DIR repo_name) file_name
  = "reports/" +:+ repo_name
    +:+ (if Str.is_empty repo_name then "" else "/") +:+ file_name.
Proof.
  intros Hname Hfile.
  assert (path_join REPORTS_DIR repo_name = "reports/" +:+ repo_name) as ->.
  { unfold path_join. by rewrite (startswith_count "/" repo_name Hname). }
  unfold path_join. rewrite Hfile.
  destruct repo_name as [|c name]; [done|].
  rewrite endswith_append by done.
  rewrite (endswith_count "/" _ Hname).
  change (Str.is_empty ("reports/" +:+ String c name)) with false.
  cbn [Str.is_empty orb]. by rewrite !append_assoc.
Qed.

(** With an empty base name the two joins leave out the doubled slash. *)
Lemma report_path_root (file_name : string) :
  normpath ("reports/" +:+ file_name) = normpath ("reports//" +:+ file_name).
Proof. reflexivity. Qed.

(** ** The loop over the dates *)

Lemma group_get_default (commits : list commit) (d : string) :
  default [] (dict_get (group_commits_by_date commits) d)
  = messages_on d commits.
Proof.
  unfold group_commits_by_date. rewrite group_from_get. cbn [dict_get].
  by destruct (messages_on d commits).
Qed.

(** The loop over the dates when every summary is a string. *)
Lemma loop_summaries (commits : list commit) (api_key : string)
    (dates ts lines points : list string) (w : world) :
  summaries str_exn http_post commits api_key dates (length (posts w))
  = Some ts ->
  for_each dates
    (analyze_date str_exn http_post (group_commits_by_date commits) api_key)
    (lines, points) w
  = (Ok (lines
         ++ concat (zip_with
                      (fun d t => date_section d (messages_on d commits) t)
                      dates ts),
         points ++ concat (map extract_task_points ts)),
     set_posts
       (posts w
        ++ map (fun d => gemini_request (messages_on d commits) api_key) dates)
       w).
Proof.
  revert ts lines points w.
  induction dates as [|d dates IH]; intros ts lines points w Hts.
  - injection Hts as <-. cbn. rewrite !app_nil_r. by destruct w.
  - cbn [summaries] in Hts. cbn [for_each]. bind_step.
    rewrite analyze_date_eq. cbn zeta. rewrite group_get_default.
    destruct (summary_of _ _) as [| | | |t| |]; try done.
    destruct (summaries _ _ _ _ dates _) as [ts'|] eqn:Hrest; [|done].
    injection Hts as <-.
    rewrite (IH ts').
    + cbn [zip_with concat map posts set_posts]. by rewrite <- !app_assoc.
    + cbn [posts set_posts]. rewrite length_app. cbn [length].
      by rewrite Nat.add_1_r.
Qed.

(** The loop over the dates when a summary is no string. *)
Lemma loop_not_text (commits : list commit) (api_key : string)
    (dates lines points : list string) (w : world) :
  summaries str_exn http_post commits api_key dates (length (posts w)) = None ->
  exists sent,
    for_each dates
      (analyze_date str_exn http_post (group_commits_by_date commits) api_key)
      (lines, points) w
    = (Raise AttributeError, set_posts sent w).
Proof.
  revert lines points w.
  induction dates as [|d dates IH]; intros lines points w Hts; [done|].
  cbn [summaries] in Hts. cbn [for_each]. bind_step.
  rewrite analyze_date_eq. cbn zeta. rewrite group_get_default.
  destruct (summary_of _ _) as [| | | |t| |]; try by eexists.
  destruct (summaries _ _ _ _ dates _) as [ts'|] eqn:Hrest; [done|].
  edestruct (IH (lines ++ date_section d (messages_on d commits) t)
                (points ++ extract_task_points t)
                (set_posts
                   (posts w ++ [gemini_request (messages_on d commits) api_key])
                   w)) as [sent ->].
  - cbn [posts set_posts]. rewrite length_app. cbn [length].
    by rewrite Nat.add_1_r.
  - by exists sent.
Qed.

(** C8: the report goes to reports/<repo-name>/<label>.md, a function of
    the base name of the repository and of the label of the dates (for a
    repository at the root of the file system, whose base name is empty,
    [os.path.join] writes that path without the doubled slash).  The
    file then holds the document of this run whatever the files held
    before: written again from the same inputs, it is replaced by the same
    content.  And the file is written: when the summary of every date is a
    string the run ends normally, and whatever the files held, also at that
    path, the file holds afterwards the title and the sections of the dates
    and nothing of what it held. *)
Theorem report_path_deterministic (commits : list commit)
    (api_key repo_path : string) (s e : cal_date) (w : world) :
  let repo_name := basename (abspath (cwd w) repo_path) in
  let label := date_label s e in
  let file := path_join (path_join REPORTS_DIR repo_name) (label +:+ ".md") in
  (repo_name <> "" -> file = report_path repo_name label)
  /\ normpath file = normpath (report_path repo_name label)
  /\ match analyze_commits str_exn http_post commits api_key repo_path
             (DateObj s) (DateObj e) w
     with
     | (Ok _, w') =>
         exists doc,
           files w' = <[file := doc]> (files w)
           /\ forall f : gmap string string,
                exists w'',
                  analyze_commits str_exn http_post commits api_key repo_path
                    (DateObj s) (DateObj e) (set_files f w) = (Ok tt, w'')
                  /\ files w'' = <[file := doc]> f
     | (Raise _, w') => files w' = files w
     end
  /\ (forall ts,
        summaries str_exn http_post commits api_key
          (merge_sort String.le (map fst (group_commits_by_date commits)))
          (length (posts w)) = Some ts ->
        forall f : gmap string string,
          exists w',
            analyze_commits str_exn http_post commits api_key repo_path
              (DateObj s) (DateObj e) (set_files f w) = (Ok tt, w')
            /\ files w'
               = <[file
                   := Str.join NL
                        (("# Work Summary for " +:+ repo_name +:+ " ("
                          +:+ label +:+ ")" +:+ NL)
                         :: concat
                              (zip_with
                                 (fun d t =>
                                    date_section d (messages_on d commits) t)
                                 (merge_sort String.le
                                    (map fst (group_commits_by_date commits)))
                                 ts))]> f).
Proof.
  intros repo_name label file.
  assert (file = "reports/" +:+ repo_name
                 +:+ (if Str.is_empty repo_name then "" else "/")
                 +:+ label +:+ ".md") as Hfile.
  { apply report_file_path; [apply basename_no_slash|].
    apply date_label_no_slash. }
  split; [|split; [|split]].
  - intros Hname. rewrite Hfile. by destruct repo_name.
  - rewrite Hfile. destruct repo_name; [apply report_path_root|done].
  - rewrite analyze_commits_eq. fold repo_name label file.
    set (grouped := group_commits_by_date commits).
    set (header := [_]).
    set (dates := merge_sort _ _).
    set (D := {[REPORTS_DIR; path_join REPORTS_DIR repo_name]}).
    destruct (loop_world grouped api_key dates (header, [])
                (set_dirs (D ∪ dirs w) w)) as [sent Hworld].
    destruct (for_each dates _ _ (set_dirs (D ∪ dirs w) w))
      as [[[lines points]|x] w'] eqn:Hloop; cbn [snd] in Hworld; subst w'.
    + exists (Str.join NL lines). split; [done|]. intros f.
      rewrite analyze_commits_eq. cbn [cwd set_files].
      fold repo_name label file grouped header dates D.
      destruct (loop_world grouped api_key dates (header, [])
                  (set_dirs (D ∪ dirs (set_files f w)) (set_files f w)))
        as [sent' Hworld'].
      destruct (loop_posts_only grouped api_key dates (header, [])
                  (set_dirs (D ∪ dirs (set_files f w)) (set_files f w))
                  (set_dirs (D ∪ dirs w) w) eq_refl) as [Hfst _].
      rewrite Hloop in Hfst.
      destruct (for_each dates _ _ (set_dirs _ (set_files f w)))
        as [r w''] eqn:Hloop'.
      cbn [fst snd] in *. subst r w''. eexists. split; [done|]. done.
    + done.
  - intros ts Hts f. rewrite analyze_commits_eq. cbn [cwd set_files].
    fold repo_name label file.
    rewrite (loop_summaries commits api_key _ ts) by exact Hts.
    eexists. split; [reflexivity|]. reflexivity.
Qed.

(** ** Failed summaries *)








(** ** The top-level flow *)

Lemma fetch_commits_eq (repo_path : string) (w : world) :
  fetch_commits str_exn git_log repo_path w
  = match git_log (if Str.is_empty repo_path then cwd w else repo_path) with
    | GitOutput output => (Ok (parse_log output), w)
    | GitFailed reason =>
        (Ok [],
         set_stdout
           (stdout w
            ++ ["Error fetching git log: "
                +:+ str_exn (SubprocessError reason)]) w)
    end.
Proof.
  unfold fetch_commits, try_except, mbind, M_bind, get.
  by destruct (git_log _).
Qed.

(** Given strings for dates, [analyze_commits] stops at [strftime], before
    the folder is made. *)
Lemma analyze_commits_strings (commits : list commit)
    (api_key repo_path a b : string) (w : world) :
  analyze_commits str_exn http_post commits api_key repo_path
    (DateStr a) (DateStr b) w
  = (Raise AttributeError, w).
Proof.
  unfold analyze_commits, mbind at 1, M_bind at 1. cbn [get].
  unfold mbind at 1, M_bind at 1, lift. cbn [date_arg_eqb date_arg_strftime].
  by destruct (String.eqb a b).
Qed.

(** The flow after the prompts, by the commits fetched. *)
Lemma run_eq (repo_path api_key : string) (start_date end_date : option cal_date)
    (w w1 : world) (commits : list commit) :
  fetch_commits str_exn git_log repo_path w = (Ok commits, w1) ->
  run str_exn http_post git_log repo_path start_date end_date api_key w
  = match commits with
    | [] =>
        (Raise (SystemExit 1),
         set_stdout (stdout w1 ++ ["No commits found."]) w1)
    | _ :: _ =>
        match filter_commits commits start_date end_date with
        | Raise x => (Raise x, w1)
        | Ok filtered =>
            match filtered, last filtered with
            | first :: _, Some final =>
                analyze_commits str_exn http_post filtered api_key repo_path
                  (match start_date with
                   | Some d => DateObj d
                   | None => DateStr (date first)
                   end)
                  (match end_date with
                   | Some d => DateObj d
                   | None => DateStr (date final)
                   end) w1
            | _, _ =>
                (Raise (SystemExit 0),
                 set_stdout
                   (stdout w1
                    ++ ["No commits found for the specified date or range."])
                   w1)
            end
        end
    end.
Proof.
  intros Hfetch. unfold run, mbind at 1, M_bind at 1. rewrite Hfetch.
  destruct commits as [|c commits]; [done|].
  unfold mbind at 1, M_bind at 1, lift.
  destruct (filter_commits _ _ _) as [filtered|x]; [|done].
  destruct filtered as [|first filtered]; [done|].
  by destruct (last (first :: filtered)).
Qed.

(** C2: with no dates from the prompt the flow never ends normally.  When
    commits were fetched and their dates parse, [analyze_commits] is given
    the date strings of the first and the last commit, and [strftime] on a
    string raises before the folder and the report are written; when a date
    does not parse, [filter_commits] has raised before. *)
Theorem all_history_raises (repo_path api_key : string) (w : world) :
  fst (run str_exn http_post git_log repo_path None None api_key w) <> Ok tt
  /\ forall output : string,
       git_log (if Str.is_empty repo_path then cwd w else repo_path)
       = GitOutput output ->
       parse_log output <> [] ->
       (exists x,
          run str_exn http_post git_log repo_path None None api_key w
          = (Raise x, w)
          /\ (x = ValueError \/ x = AttributeError))
       /\ (forallb (fun c => parses (date c)) (parse_log output) = true ->
           exists first final,
             head (parse_log output) = Some first
             /\ last (parse_log output) = Some final
             /\ run str_exn http_post git_log repo_path None None api_key w
                = analyze_commits str_exn http_post (parse_log output)
                    api_key repo_path
                    (DateStr (date first)) (DateStr (date final)) w
             /\ run str_exn http_post git_log repo_path None None api_key w
                = (Raise AttributeError, w)).
Proof.
  pose proof (fetch_commits_eq repo_path w) as Hfetch. split.
  - destruct (git_log _); rewrite (run_eq _ _ _ _ _ _ _ Hfetch); [done|].
    destruct (parse_log output) as [|c commits]; [done|].
    rewrite filter_commits_no_bounds.
    destruct (forallb _ _); [|done].
    destruct (last (c :: commits)); [|done].
    by rewrite analyze_commits_strings.
  - intros output Hgit Hsome. rewrite Hgit in Hfetch.
    rewrite (run_eq _ _ _ _ _ _ _ Hfetch), filter_commits_no_bounds.
    destruct (parse_log output) as [|c commits]; [done|].
    destruct (last (c :: commits)) as [final|] eqn:Hlast;
      [|by rewrite last_cons in Hlast; destruct (last commits)].
    destruct (forallb _ _).
    + rewrite Hlast, analyze_commits_strings. split; [eauto|].
      intros _. exists c, final. by rewrite analyze_commits_strings.
    + split; [eauto|done].
Qed.

(** ** The prompts *)

Lemma load_repo_paths_eq (w : world) :
  load_repo_paths w = (Ok (known_paths w), w).
Proof.
  unfold load_repo_paths, known_paths, isfile, mbind, M_bind, mret, M_ret, get.
  cbn beta iota.
  destruct (files w !! REPO_LIST_FILE) as [content|] eqn:Hfile; cbn;
    [by rewrite Hfile|done].
Qed.

Lemma py_int_raises (s : string) (x : exn) :
  py_int s = Raise x -> x = ValueError.
Proof.
  unfold py_int. destruct (match Str.strip s with "" => _ | _ => _ end);
    congruence.
Qed.

Lemma input_eq (prompt line : string) (rest : list string) (w : world) :
  stdin w = line :: rest ->
  input prompt w
  = (Ok line, set_stdin rest (set_stdout (stdout w ++ [prompt]) w)).
Proof.
  intros Hin. unfold input, print, mbind, M_bind, get, modify.
  cbn. by rewrite Hin.
Qed.

Lemma enter_new_repo_path_missing (w : world) (typed : string)
    (rest : list string) :
  stdin w = typed :: rest ->
  Str.strip typed ∉ dirs w ->
  exits (enter_new_repo_path) w 1.
Proof.
  intros Hin Hdir. unfold exits, enter_new_repo_path, mbind at 1, M_bind at 1.
  rewrite (input_eq _ _ _ _ Hin).
  unfold isdir, mbind, M_bind, get. cbn.
  rewrite bool_decide_eq_false_2 by done. by eexists.
Qed.

Lemma print_paths (paths : list string) (idx : nat) (w : world) :
  exists out,
    for_each paths
      (fun idx p => print (pretty idx +:+ ". " +:+ p);; mret (S idx)) idx w
    = (Ok (idx + length paths)%nat, set_stdout (stdout w ++ out) w).
Proof.
  revert idx w. induction paths as [|p paths IH]; intros idx w.
  - exists []. cbn. rewrite app_nil_r, Nat.add_0_r. by destruct w.
  - cbn [for_each]. bind_step.
    unfold mbind at 1, M_bind at 1, print, modify, mret, M_ret.
    edestruct IH as [out ->]. eexists (_ :: out). cbn.
    rewrite <- app_assoc. repeat f_equal. lia.
Qed.

(** The menu of repositories up to the choice typed. *)
Lemma prompt_repo_path_menu (w : world) (p : string) (paths : list string)
    (choice : string) (rest : list string) :
  known_paths w = p :: paths ->
  stdin w = choice :: rest ->
  exists w1,
    stdin w1 = rest /\ dirs w1 = dirs w /\ known_paths w1 = known_paths w
    /\ prompt_repo_path w
       = try_except
           (choice ← lift (py_int (Str.strip choice));
            if (1 <=? choice)%Z
               && (choice <=? Z.of_nat (length (p :: paths)))%Z then
              match (p :: paths) !! Z.to_nat (choice - 1) with
              | Some p => mret p
              | None => raise IndexError
              end
            else if (choice =? Z.of_nat (length (p :: paths)) + 1)%Z then
              enter_new_repo_path
            else print "Invalid choice.";; sys_exit 1)
           (fun _ => print "Invalid input.";; sys_exit 1) w1.
Proof.
  intros Hpaths Hin. unfold prompt_repo_path, mbind at 1, M_bind at 1.
  rewrite load_repo_paths_eq, Hpaths.
  unfold mbind at 1, M_bind at 1, print at 1, modify.
  bind_step.
  edestruct (print_paths (p :: paths) 1) as [out ->].
  unfold mbind at 1, M_bind at 1, print at 1, modify.
  bind_step.
  erewrite input_eq by (cbn; exact Hin).
  eexists. split; [|split; [|split]]; [..|reflexivity]; done.
Qed.

Lemma prompt_repo_path_invalid (w : world) (choice : string)
    (rest : list string) :
  known_paths w <> [] ->
  stdin w = choice :: rest ->
  match py_int (Str.strip choice) with
  | Ok z => (z < 1 \/ Z.of_nat (length (known_paths w)) + 1 < z)%Z
  | Raise _ => True
  end ->
  exits prompt_repo_path w 1.
Proof.
  intros Hpaths Hin Hbad.
  destruct (known_paths w) as [|p paths] eqn:Hknown; [done|].
  unfold exits.
  destruct (prompt_repo_path_menu w p paths choice rest Hknown Hin)
    as (w1 & _ & _ & _ & ->).
  unfold try_except, mbind at 1, M_bind at 1, lift.
  destruct (py_int (Str.strip choice)) as [z|x] eqn:Hint.
  - rewrite (proj2 (andb_false_iff _ _)) by (rewrite Z.leb_gt, Z.leb_gt; lia).
    rewrite (proj2 (Z.eqb_neq _ _)) by lia.
    by eexists.
  - apply py_int_raises in Hint as ->. by eexists.
Qed.

Lemma prompt_repo_path_missing_dir (w : world) (choice typed : string)
    (rest : list string) :
  Str.strip typed ∉ dirs w ->
  (known_paths w = [] /\ stdin w = typed :: rest)
  \/ (known_paths w <> [] /\ stdin w = choice :: typed :: rest
      /\ py_int (Str.strip choice)
         = Ok (Z.of_nat (length (known_paths w)) + 1)%Z) ->
  exits prompt_repo_path w 1.
Proof.
  intros Hdir [[Hnone Hin]|(Hpaths & Hin & Hint)].
  - unfold exits, prompt_repo_path, mbind at 1, M_bind at 1.
    rewrite load_repo_paths_eq, Hnone.
    by apply (enter_new_repo_path_missing w typed rest).
  - destruct (known_paths w) as [|p paths] eqn:Hknown; [done|].
    unfold exits.
    destruct (prompt_repo_path_menu w p paths choice _ Hknown Hin)
      as (w1 & Hin1 & Hdirs1 & _ & ->).
    unfold try_except, mbind at 1, M_bind at 1, lift. rewrite Hint.
    rewrite (proj2 (andb_false_iff _ _)) by (rewrite Z.leb_gt, Z.leb_gt; lia).
    rewrite Z.eqb_refl.
    destruct (enter_new_repo_path_missing w1 typed rest Hin1) as [w' ->];
      [by rewrite Hdirs1|].
    by eexists.
Qed.

Lemma prompt_dates_invalid_date (w : world) (choice typed : string)
    (rest : list string) :
  stdin w = choice :: typed :: rest ->
  Str.strip choice = "2" ->
  parses (Str.strip typed) = false ->
  exits prompt_dates w 1.
Proof.
  intros Hin Hchoice Hdate. apply parses_false in Hdate.
  unfold exits, prompt_dates, input, print, try_except.
  unfold_monad.
  cbn. rewrite Hin. cbn. rewrite Hchoice. cbn. rewrite Hdate. cbn.
  by eexists.
Qed.

Lemma prompt_dates_invalid_range (w : world) (choice first last : string)
    (rest : list string) :
  stdin w = choice :: first :: last :: rest ->
  Str.strip choice = "3" ->
  parses (Str.strip first) && parses (Str.strip last) = false ->
  exits prompt_dates w 1.
Proof.
  intros Hin Hchoice Hdate.
  unfold exits, prompt_dates, input, print, try_except.
  unfold_monad.
  cbn. rewrite Hin. cbn. rewrite Hchoice. cbn.
  unfold parses in Hdate.
  destruct (strptime (Str.strip first)) as [d1|x1] eqn:H1.
  - destruct (strptime (Str.strip last)) as [d2|x2] eqn:H2; [done|].
    apply strptime_raises in H2 as ->. cbn. by eexists.
  - apply strptime_raises in H1 as ->. cbn. by eexists.
Qed.

Lemma dotenv_lookup_raises (key_name : string) (lines : list string) (x : exn) :
  dotenv_lookup key_name lines = Raise x -> x = ValueError.
Proof.
  induction lines as [|line lines IH]; cbn [dotenv_lookup]; [done|].
  repeat case_match; try done; congruence.
Qed.

(** Reading the credential file changes nothing and never raises. *)
Lemma load_dotenv_key_eq (key_name : string) (w : world) :
  exists found, load_dotenv_key key_name w = (Ok found, w).
Proof.
  unfold load_dotenv_key, isfile, try_except.
  unfold_monad.
  destruct (bool_decide _); [|by eexists].
  destruct (dotenv_lookup _ _) as [found|x] eqn:Hlookup; [by eexists|].
  apply dotenv_lookup_raises in Hlookup as ->. by eexists.
Qed.

Lemma prompt_api_key_missing (w : world) (found : option string)
    (typed : string) (rest : list string) :
  fst (load_dotenv_key "GEMINI_API_KEY" w) = Ok found ->
  falsy found = true ->
  falsy (environ w !! "GEMINI_API_KEY") = true ->
  stdin w = typed :: rest ->
  Str.strip typed = "" ->
  exits prompt_api_key w 1.
Proof.
  intros Hfile Hfound Henv Hin Htyped.
  destruct (load_dotenv_key_eq "GEMINI_API_KEY" w) as [found' Hload].
  rewrite Hload in Hfile. injection Hfile as ->.
  unfold exits, prompt_api_key, mbind at 1, M_bind at 1. rewrite Hload, Hfound.
  unfold input, print.
  unfold_monad.
  cbn. rewrite Henv, Hin. cbn. rewrite Htyped. cbn. by eexists.
Qed.

(** An exit inside a block of [prompt_user] is the exit of the script. *)
Lemma main_exits_in_prompt (w : world) (code : nat) :
  exits prompt_repo_path w code
  \/ (exists repo_path w1,
        prompt_repo_path w = (Ok repo_path, w1)
        /\ (exits prompt_dates w1 code
            \/ exists dates w2,
                 prompt_dates w1 = (Ok dates, w2)
                 /\ exits prompt_api_key w2 code)) ->
  exits (main str_exn http_post git_log) w code.
Proof.
  unfold exits, main, prompt_user, mbind, M_bind.
  intros [[w' H]|(repo_path & w1 & Hrepo
                  & [[w' H]|(dates & w2 & Hdates & [w' H])])].
  - rewrite H. by eexists.
  - rewrite Hrepo. cbn beta iota. rewrite H. by eexists.
  - rewrite Hrepo. cbn beta iota. rewrite Hdates. destruct dates as [s e].
    cbn beta iota. rewrite H. by eexists.
Qed.

(** After the prompts the script is [run]. *)
Lemma main_after_prompt (w w1 : world) (repo_path api_key : string)
    (start_date end_date : option cal_date) :
  prompt_user w = (Ok (repo_path, start_date, end_date, api_key), w1) ->
  main str_exn http_post git_log w
  = run str_exn http_post git_log repo_path start_date end_date api_key w1.
Proof. intros Hprompt. unfold main, mbind, M_bind. by rewrite Hprompt. Qed.

(** C7: a commit whose date does not parse makes [filter_commits] raise,
    whatever the bounds, and nothing between the filter and the end of the
    process catches the exception: the script ends on it, with status 1. *)
Theorem unparsable_date_raises (commits : list commit)
    (start_date end_date : option cal_date) :
  existsb (fun c => negb (parses (date c))) commits = true ->
  filter_commits commits start_date end_date = Raise ValueError
  /\ forall (repo_path api_key : string) (w w1 w2 : world),
       prompt_user w = (Ok (repo_path, start_date, end_date, api_key), w1) ->
       fetch_commits str_exn git_log repo_path w1 = (Ok commits, w2) ->
       main str_exn http_post git_log w = (Raise ValueError, w2)
       /\ exit_code (fst (main str_exn http_post git_log w)) = 1.
Proof.
  intros Hbad.
  assert (filter_commits commits start_date end_date = Raise ValueError)
    as Hfilter by by apply filter_from_unparsable.
  split; [done|]. intros repo_path api_key w w1 w2 Hprompt Hfetch.
  rewrite (main_after_prompt _ _ _ _ _ _ Hprompt).
  rewrite (run_eq _ _ _ _ _ _ _ Hfetch), Hfilter.
  by destruct commits.
Qed.

(** C9: the script exits with 1 when no commit was fetched, and with 0 when
    commits were fetched and none is in the range; and it exits with 1 on an
    invalid choice of repository, a path that is no directory, a date that
    does not parse, and a missing credential. *)
Theorem exit_codes :
  (forall repo_path api_key start_date end_date w w1,
     fetch_commits str_exn git_log repo_path w = (Ok [], w1) ->
     exits (run str_exn http_post git_log repo_path start_date end_date api_key)
           w 1)
  /\ (forall repo_path api_key start_date end_date w w1 commits,
        fetch_commits str_exn git_log repo_path w = (Ok commits, w1) ->
        commits <> [] ->
        filter_commits commits start_date end_date = Ok [] ->
        exits (run str_exn http_post git_log repo_path start_date end_date
                 api_key) w 0)
  /\ (forall w choice rest,
        known_paths w <> [] ->
        stdin w = choice :: rest ->
        match py_int (Str.strip choice) with
        | Ok z => (z < 1 \/ Z.of_nat (length (known_paths w)) + 1 < z)%Z
        | Raise _ => True
        end ->
        exits prompt_repo_path w 1)
  /\ (forall w choice typed rest,
        Str.strip typed ∉ dirs w ->
        (known_paths w = [] /\ stdin w = typed :: rest)
        \/ (known_paths w <> [] /\ stdin w = choice :: typed :: rest
            /\ py_int (Str.strip choice)
               = Ok (Z.of_nat (length (known_paths w)) + 1)%Z) ->
        exits prompt_repo_path w 1)
  /\ (forall w choice typed rest,
        stdin w = choice :: typed :: rest ->
        Str.strip choice = "2" ->
        parses (Str.strip typed) = false ->
        exits prompt_dates w 1)
  /\ (forall w choice first last rest,
        stdin w = choice :: first :: last :: rest ->
        Str.strip choice = "3" ->
        parses (Str.strip first) && parses (Str.strip last) = false ->
        exits prompt_dates w 1)
  /\ (forall w found typed rest,
        fst (load_dotenv_key "GEMINI_API_KEY" w) = Ok found ->
        falsy found = true ->
        falsy (environ w !! "GEMINI_API_KEY") = true ->
        stdin w = typed :: rest ->
        Str.strip typed = "" ->
        exits prompt_api_key w 1)
  /\ (forall w code,
        exits prompt_repo_path w code
        \/ (exists repo_path w1,
              prompt_repo_path w = (Ok repo_path, w1)
              /\ (exits prompt_dates w1 code
                  \/ exists dates w2,
                       prompt_dates w1 = (Ok dates, w2)
                       /\ exits prompt_api_key w2 code)) ->
        exits (main str_exn http_post git_log) w code)
  /\ (forall w w1 repo_path api_key start_date end_date code,
        prompt_user w = (Ok (repo_path, start_date, end_date, api_key), w1) ->
        exits (run str_exn http_post git_log repo_path start_date end_date
                 api_key) w1 code ->
        exits (main str_exn http_post git_log) w code)
  /\ (forall (m : M unit) w code,
        exits m w code -> exit_code (fst (m w)) = code).
Proof.
  repeat split.
  - intros repo_path api_key start_date end_date w w1 Hfetch.
    unfold exits. rewrite (run_eq _ _ _ _ _ _ _ Hfetch). by eexists.
  - intros repo_path api_key start_date end_date w w1 commits Hfetch Hsome Hnone.
    unfold exits. rewrite (run_eq _ _ _ _ _ _ _ Hfetch), Hnone.
    destruct commits; [done|]. by eexists.
  - apply prompt_repo_path_invalid.
  - apply prompt_repo_path_missing_dir.
  - apply prompt_dates_invalid_date.
  - apply prompt_dates_invalid_range.
  - apply prompt_api_key_missing.
  - apply main_exits_in_prompt.
  - intros w w1 repo_path api_key start_date end_date code Hprompt Hrun.
    unfold exits. by rewrite (main_after_prompt _ _ _ _ _ _ Hprompt).
  - intros m w code [w' ->]. done.
Qed.

End ScriptProperties.

(** ** The theorems on the sample world *)

Lemma unparsable_date_raises_witness :
  filter_commits
    [Commit "a1" "2024-01-02" "fix parser"; Commit "b2" "yesterday" "oops"]
    None None = Raise ValueError
  /\ fst (main sample_str_exn sample_offline sample_git_bad_date
            (set_stdin ["/home/me/proj"; "1"] sample_world))
     = Raise ValueError.
Proof.
  destruct (unparsable_date_raises sample_str_exn sample_offline
              sample_git_bad_date
              [Commit "a1" "2024-01-02" "fix parser";
               Commit "b2" "yesterday" "oops"] None None eq_refl)
    as [Hfilter Hmain].
  split; [exact Hfilter|].
  set (w := set_stdin ["/home/me/proj"; "1"] sample_world).
  set (w1 := snd (prompt_user w)).
  destruct (Hmain "/home/me/proj" "secret" w w1 w1) as [-> _];
    [vm_compute; reflexivity..|reflexivity].
Defined.

Lemma all_history_raises_witness :
  run sample_str_exn sample_offline sample_git "/home/me/proj" None None
      "secret" sample_world
  = (Raise AttributeError, sample_world).
Proof.
  destruct (all_history_raises sample_str_exn sample_offline sample_git
              "/home/me/proj" "secret" sample_world) as [_ Hrun].
  destruct (Hrun _ eq_refl) as [_ Hparsed]; [by vm_compute|].
  destruct (Hparsed eq_refl) as (first & final & _ & _ & _ & Hraise).
  exact Hraise.
Defined.



Lemma report_path_deterministic_witness :
  path_join (path_join REPORTS_DIR (basename (abspath "/home/me" "proj/")))
            (date_label (Date 2024 1 1) (Date 2024 1 2) +:+ ".md")
  = "reports/proj/2024-01-01_to_2024-01-02.md"
  /\ exists w',
       analyze_commits sample_str_exn sample_online sample_commits "secret"
         "proj/" (DateObj (Date 2024 1 1)) (DateObj (Date 2024 1 2))
         (set_files
            {["reports/proj/2024-01-01_to_2024-01-02.md" := "an older report";
              "notes.txt" := "kept"]} sample_world)
       = (Ok tt, w')
       /\ files w'
          = {["reports/proj/2024-01-01_to_2024-01-02.md"
              := Str.join NL
                   ["# Work Summary for proj (2024-01-01_to_2024-01-02)"
                    +:+ NL;
                    "## Date: 2024-01-01";
                    "**Summary:** - fixed the parser" +:+ NL
                    +:+ "- wrote tests" +:+ NL;
                    "**Messages:**";
                    "- first commit";
                    "";
                    "## Date: 2024-01-02";
                    "**Summary:** - fixed the parser" +:+ NL
                    +:+ "- wrote tests" +:+ NL;
                    "**Messages:**";
                    "- fix parser";
                    "- add tests";
                    ""];
              "notes.txt" := "kept"]}.
Proof.
  destruct (report_path_deterministic sample_str_exn sample_online
              sample_commits "secret" "proj/" (Date 2024 1 1) (Date 2024 1 2)
              sample_world)
    as (Hpath & _ & _ & Hwrite).
  split; [apply Hpath; by vm_compute|].
  destruct (Hwrite ["- fixed the parser" +:+ NL +:+ "- wrote tests";
                    "- fixed the parser" +:+ NL +:+ "- wrote tests"]
              eq_refl
              {["reports/proj/2024-01-01_to_2024-01-02.md" := "an older report";
                "notes.txt" := "kept"]})
    as (w' & Hrun & Hfiles).
  exists w'. split; [exact Hrun|]. rewrite Hfiles. by vm_compute.
Defined.

Lemma exit_codes_witness :
  exits (main sample_str_exn sample_offline sample_git)
        (set_stdin ["/nowhere"] sample_world) 1.
Proof.
  destruct (exit_codes sample_str_exn sample_offline sample_git)
    as (_ & _ & _ & Hdir & _ & _ & _ & Hmain & _).
  apply Hmain. left. apply (Hdir _ "" "/nowhere" []).
  - apply (bool_decide_unpack _). by vm_compute.
  - left. split; reflexivity.
Defined.

(** ** Sample runs of the script *)

(** One date, no network: the report is written with the error string, the
    point printed is the error string, and the script ends normally. *)
Example run_specific_date :
  let r := main sample_str_exn sample_offline sample_git
             (set_stdin ["/home/me/proj"; "2"; "2024-01-02"] sample_world) in
  fst r = Ok tt
  /\ files (snd r) !! "reports/proj/2024-01-02.md"
     = Some (Str.join NL
               ["# Work Summary for proj (2024-01-02)" +:+ NL;
                "## Date: 2024-01-02";
                "**Summary:** [Gemini API error: Connection refused]" +:+ NL;
                "**Messages:**";
                "- fix parser";
                ""])
  /\ last (stdout (snd r)) = Some "- [Gemini API error: Connection refused]".
Proof. vm_compute. done. Qed.

(** All history: a traceback, and no report. *)
Example run_all_history :
  let r := main sample_str_exn sample_offline sample_git
             (set_stdin ["/home/me/proj"; "1"] sample_world) in
  fst r = Raise AttributeError
  /\ exit_code (fst r) = 1
  /\ files (snd r) = {["repos.txt" := "/home/me/proj" +:+ NL]}.
Proof. vm_compute. done. Qed.

Example run_none_in_range :
  fst (main sample_str_exn sample_offline sample_git
         (set_stdin ["/home/me/proj"; "2"; "2023-01-02"] sample_world))
  = Raise (SystemExit 0).
Proof. vm_compute. done. Qed.

Example run_git_fails :
  fst (main sample_str_exn sample_offline
         (fun _ => GitFailed "not a git repository")
         (set_stdin ["/home/me/proj"; "1"] sample_world))
  = Raise (SystemExit 1).
Proof. vm_compute. done. Qed.

Example run_invalid_date :
  fst (main sample_str_exn sample_offline sample_git
         (set_stdin ["/home/me/proj"; "2"; "02/01/2024"] sample_world))
  = Raise (SystemExit 1).
Proof. vm_compute. done. Qed.

Example run_invalid_choice :
  fst (main sample_str_exn sample_offline sample_git
         (set_stdin ["7"]
            (set_files {[REPO_LIST_FILE := "/home/me/proj" +:+ NL]}
               sample_world)))
  = Raise (SystemExit 1).
Proof. vm_compute. done. Qed.

Example run_no_credential :
  fst (main sample_str_exn sample_offline sample_git
         (set_stdin ["/home/me/proj"; "4"; "  "]
            (World ∅ {["/home/me/proj"]} ∅ "/home/me" (Date 2024 1 2)
                   [] [] [])))
  = Raise (SystemExit 1).
Proof. vm_compute. done. Qed.

(** * Further properties *)

(** ** Trimming *)

Lemma rstrip_by_cons (p : ascii -> bool) (c : ascii) (s : string) :
  p c = false -> Str.rstrip_by p (String c s) = String c (Str.rstrip_by p s).
Proof.
  intros Hc. cbn [Str.rstrip_by]. rewrite Hc. by destruct (Str.rstrip_by p s).
Qed.

Lemma rstrip_by_idem (p : ascii -> bool) (s : string) :
  Str.rstrip_by p (Str.rstrip_by p s) = Str.rstrip_by p s.
Proof.
  induction s as [|c s IH]; [done|]. cbn [Str.rstrip_by].
  destruct (Str.rstrip_by p s) as [|c' kept] eqn:Hkept.
  - destruct (p c) eqn:Hc; [done|]. cbn [Str.rstrip_by]. by rewrite Hc.
  - change (Str.rstrip_by p (String c (String c' kept))
            = String c (String c' kept)).
    cbn [Str.rstrip_by] in *. by rewrite IH.
Qed.

(** What [lstrip] leaves starts with a character it does not take. *)
Lemma lstrip_by_head (p : ascii -> bool) (s : string) :
  Str.lstrip_by p s = ""
  \/ exists c rest, Str.lstrip_by p s = String c rest /\ p c = false.
Proof.
  induction s as [|c s IH]; [by left|]. cbn [Str.lstrip_by].
  destruct (p c) eqn:Hc; [done|]. right. by exists c, s.
Qed.

Lemma strip_by_idem (p : ascii -> bool) (s : string) :
  Str.strip_by p (Str.strip_by p s) = Str.strip_by p s.
Proof.
  unfold Str.strip_by.
  destruct (lstrip_by_head p s) as [->|(c & rest & -> & Hc)]; [done|].
  rewrite (rstrip_by_cons p c rest Hc). cbn [Str.lstrip_by]. rewrite Hc.
  by rewrite <- (rstrip_by_cons p c rest Hc), rstrip_by_idem.
Qed.

Lemma strip_by_nonempty_head (p : ascii -> bool) (s : string) :
  Str.strip_by p s <> "" ->
  exists c rest, Str.strip_by p s = String c rest /\ p c = false.
Proof.
  unfold Str.strip_by.
  destruct (lstrip_by_head p s) as [->|(c & rest & -> & Hc)]; [done|].
  intros _. rewrite (rstrip_by_cons p c rest Hc). eauto.
Qed.

(** A stripped character at the end goes with the rest. *)
Lemma rstrip_by_snoc (p : ascii -> bool) (s : string) (c : ascii) :
  p c = true ->
  Str.rstrip_by p (s +:+ String c "") = Str.rstrip_by p s.
Proof.
  intros Hc. induction s as [|x s IH].
  - rewrite append_empty_l. cbn [Str.rstrip_by]. by rewrite Hc.
  - rewrite append_cons. cbn [Str.rstrip_by]. by rewrite IH.
Qed.

(** A trimmed text followed by a newline reads back as the text. *)
Lemma strip_line (s : string) :
  Str.strip s <> "" -> Str.strip (Str.strip s +:+ NL) = Str.strip s.
Proof.
  intros Hsome. unfold Str.strip in *.
  destruct (strip_by_nonempty_head _ s Hsome) as (c & rest & Hs & Hc).
  unfold Str.strip_by at 1. rewrite Hs, append_cons. cbn [Str.lstrip_by].
  rewrite Hc, <- append_cons, <- Hs.
  unfold NL. rewrite rstrip_by_snoc by done.
  unfold Str.strip_by. apply rstrip_by_idem.
Qed.

(** What is left of a text that ends on a kept character and is not empty
    is not empty, and is trimmed. *)
Lemma strip_by_of_rstripped (p : ascii -> bool) (s : string) :
  Str.rstrip_by p s = s -> s <> "" ->
  Str.strip_by p s <> "".
Proof.
  unfold Str.strip_by. induction s as [|c s IH]; [done|]. intros Hs _.
  cbn [Str.lstrip_by]. destruct (p c) eqn:Hc.
  - cbn [Str.rstrip_by] in Hs. rewrite Hc in Hs.
    destruct (Str.rstrip_by p s) as [|c' kept] eqn:Hkept; [done|].
    injection Hs as Hs. apply IH; [congruence|]. by rewrite <- Hs.
  - apply rstrip_by_empty. done.
Qed.

Lemma rstrip_by_tail (p : ascii -> bool) (c : ascii) (s : string) :
  Str.rstrip_by p (String c s) = String c s -> s <> "" ->
  Str.rstrip_by p s = s.
Proof.
  cbn [Str.rstrip_by]. intros Hs Hsome.
  destruct (Str.rstrip_by p s) as [|c' kept].
  - destruct (p c); [done|]. injection Hs as <-. done.
  - by injection Hs.
Qed.

(** ** Task points, further *)

Lemma extract_task_points_omap (summary : string) :
  extract_task_points summary
  = match omap bullet_point (Str.splitlines summary) with
    | [] =>
        if Str.is_empty (Str.strip summary) then [] else [Str.strip summary]
    | points => points
    end.
Proof.
  unfold extract_task_points.
  rewrite (fold_left_step_ext _
    (fun points line => match bullet_point line with
                        | Some point => points ++ [point]
                        | None => points
                        end)) by (intros; apply extract_step).
  rewrite fold_left_omap. cbn [app].
  destruct (omap bullet_point (Str.splitlines summary)); [|done].
  by destruct (Str.is_empty (Str.strip summary)).
Qed.

Lemma bullet_point_trimmed (line point : string) :
  bullet_point line = Some point -> point <> "" /\ Str.strip point = point.
Proof.
  unfold bullet_point.
  destruct (Str.strip line) as [|marker [|c rest]] eqn:Hline; [done..|].
  destruct (_ && _); [|done]. intros [= <-]. split.
  - apply strip_by_of_rstripped; [|done].
    apply (rstrip_by_tail _ marker); [|done].
    rewrite <- Hline. apply rstrip_by_idem.
  - apply strip_by_idem.
Qed.

(** X1: no point is empty, and every point is trimmed: the script never
    prints an empty bullet. *)
Theorem extract_task_points_trimmed (summary : string) :
  Forall (fun point => point <> "" /\ Str.strip point = point)
         (extract_task_points summary).
Proof.
  rewrite extract_task_points_omap.
  destruct (omap bullet_point (Str.splitlines summary)) as [|p points] eqn:Hp.
  - destruct (Str.strip summary) eqn:Hs; cbn [Str.is_empty]; [constructor|].
    repeat constructor; [done|]. rewrite <- Hs. apply strip_by_idem.
  - rewrite <- Hp. apply Forall_forall. intros point Hin.
    apply list_elem_of_omap in Hin as (line & _ & Hline).
    by apply (bullet_point_trimmed line).
Qed.

(** ** The commit parser, further *)

Lemma line_fields_Some (line : string) (c : commit) :
  line_fields line = Some c ->
  line = log_line c
  /\ Str.count "|" (hash c) = 0 /\ Str.count "|" (date c) = 0.
Proof.
  unfold line_fields, log_line.
  destruct (Str.partition "|" line) as [[h rest]|] eqn:H1; [|done].
  destruct (Str.partition "|" rest) as [[d m]|] eqn:H2; [|done].
  intros [= <-]. cbn [hash date message].
  apply partition_Some in H1 as [-> Hh], H2 as [-> Hd]. done.
Qed.

Lemma line_fields_log_line (c : commit) :
  Str.count "|" (hash c) = 0 -> Str.count "|" (date c) = 0 ->
  line_fields (log_line c) = Some c.
Proof.
  intros Hh Hd. unfold line_fields, log_line.
  change ("|" +:+ date c +:+ "|" +:+ message c)
    with (String "|"%char (date c +:+ String "|"%char (message c))).
  rewrite (partition_append "|" (hash c)) by done. cbv beta iota.
  rewrite (partition_append "|" (date c)) by done. by destruct c.
Qed.

(** X2: in every commit the parser returns, the hash and the date hold no
    delimiter, no field holds a newline, and the three fields joined by
    the delimiter are a line of the output. *)
Theorem parse_log_fields (output : string) :
  Forall (fun c =>
            Str.count "|" (hash c) = 0 /\ Str.count "|" (date c) = 0
            /\ Str.count LF (hash c) = 0 /\ Str.count LF (date c) = 0
            /\ Str.count LF (message c) = 0
            /\ log_line c ∈ Str.split LF (Str.strip output))
         (parse_log output).
Proof.
  unfold parse_log. rewrite parse_log_lines_omap.
  apply Forall_forall. intros c Hin.
  apply list_elem_of_omap in Hin as (line & Hline & Hc).
  apply line_fields_Some in Hc as (-> & Hh & Hd).
  pose proof (split_no_sep LF _ _ Hline) as Hlf.
  unfold log_line in Hlf. rewrite !count_append in Hlf.
  repeat split; try done; lia.
Qed.

Lemma omap_line_fields_log_lines (commits : list commit) :
  forallb loggable commits = true ->
  omap line_fields (map log_line commits) = commits.
Proof.
  induction commits as [|c commits IH]; [done|]. cbn [forallb map].
  intros [Hc Hall]%andb_true_iff. rewrite omap_cons.
  unfold loggable in Hc. rewrite !andb_true_iff, !Nat.eqb_eq in Hc.
  rewrite line_fields_log_line by tauto. by rewrite IH.
Qed.

(** X3: the parser reads back the log of the commits it is given: for
    commits the log can carry, whose output has no white space at its two
    ends, parsing the lines [hash|date|subject] joined by newlines gives the
    commits, in order. *)
Theorem parse_log_round_trip (commits : list commit) :
  forallb loggable commits = true ->
  Str.strip (Str.join NL (map log_line commits))
  = Str.join NL (map log_line commits) ->
  parse_log (Str.join NL (map log_line commits)) = commits.
Proof.
  intros Hall Hstrip. destruct commits as [|c commits]; [done|].
  rewrite parse_log_of_lines; [|done| |done].
  - rewrite parse_log_lines_omap. by apply omap_line_fields_log_lines.
  - apply Forall_forall. intros line Hin.
    apply list_elem_of_fmap in Hin as (c' & -> & Hc').
    assert (loggable c' = true) as Hlog.
    { rewrite forallb_forall in Hall. by apply Hall, list_elem_of_In. }
    unfold loggable in Hlog. rewrite !andb_true_iff, !Nat.eqb_eq in Hlog.
    unfold log_line. rewrite !count_append.
    change (Str.count LF "|") with 0. lia.
Qed.

Lemma parse_log_round_trip_witness :
  parse_log
    (Str.join NL
       (map log_line
          [Commit "a1" "2024-01-02" "fix a|b"; Commit "b2" "2024-01-01" ""]))
  = [Commit "a1" "2024-01-02" "fix a|b"; Commit "b2" "2024-01-01" ""].
Proof.
  apply (parse_log_round_trip
           [Commit "a1" "2024-01-02" "fix a|b"; Commit "b2" "2024-01-01" ""]);
    reflexivity.
Defined.

(** ** Grouping, further *)

Lemma dict_append_messages (g : list (string * list string)) (k msg : string) :
  concat (map snd (dict_append g k msg)) ≡ₚ concat (map snd g) ++ [msg].
Proof.
  induction g as [|[k' v] g IH]; [done|]. cbn [dict_append].
  destruct (String.eqb k' k); cbn [map snd concat].
  - rewrite <- !app_assoc. f_equiv. apply Permutation_app_comm.
  - rewrite IH. by rewrite app_assoc.
Qed.

Lemma dict_append_nonempty (g : list (string * list string)) (k msg : string) :
  Forall (fun kv => snd kv <> []) g ->
  Forall (fun kv => snd kv <> []) (dict_append g k msg).
Proof.
  induction 1 as [|[k' v] g Hv Hg IH]; cbn [dict_append].
  - by repeat constructor.
  - destruct (String.eqb k' k); constructor; try done.
    cbn. by destruct v.
Qed.

Lemma group_from_complete (commits : list commit)
    (g : list (string * list string)) :
  let grouped :=
    fold_left (fun grouped c => dict_append grouped (date c) (message c))
              commits g in
  concat (map snd grouped) ≡ₚ concat (map snd g) ++ map message commits
  /\ (forall d, d ∈ map fst grouped <-> d ∈ map fst g \/ d ∈ map date commits)
  /\ (Forall (fun kv => snd kv <> []) g ->
      Forall (fun kv => snd kv <> []) grouped).
Proof.
  revert g. induction commits as [|c commits IH]; intros g; cbn zeta.
  - rewrite app_nil_r. split; [done|]. split; [|done].
    intros d. rewrite elem_of_nil. tauto.
  - cbn [fold_left map].
    destruct (IH (dict_append g (date c) (message c))) as (Hperm & Hkeys & Hne).
    split; [|split].
    + rewrite Hperm, dict_append_messages, <- app_assoc. done.
    + intros d. rewrite Hkeys, dict_append_keys.
      rewrite (elem_of_cons (map date commits) d (date c)).
      destruct (bool_decide (date c ∈ map fst g)) eqn:Hin.
      * apply bool_decide_eq_true in Hin.
        split; [tauto|]. intros [?|[->|?]]; tauto.
      * rewrite elem_of_app, list_elem_of_singleton. tauto.
    + intros Hg. by apply Hne, dict_append_nonempty.
Qed.

(** X4: grouping loses and adds nothing: the groups together hold the
    messages of the commits, each once; the keys are the dates that occur;
    and no group is empty. *)
Theorem group_commits_by_date_complete (commits : list commit) :
  concat (map snd (group_commits_by_date commits)) ≡ₚ map message commits
  /\ (forall d, d ∈ map fst (group_commits_by_date commits)
                <-> d ∈ map date commits)
  /\ Forall (fun kv => snd kv <> []) (group_commits_by_date commits).
Proof.
  destruct (group_from_complete commits []) as (Hperm & Hkeys & Hne).
  split; [exact Hperm|]. split; [|by apply Hne].
  intros d. rewrite (Hkeys d). cbn [map]. rewrite elem_of_nil. tauto.
Qed.

(** ** Filtering, further *)

Lemma filter_from_range (s e : option cal_date) (commits filtered : list commit) :
  forallb (fun c => parses (date c)) commits = true ->
  fold_left (filter_step s e) commits (Ok filtered)
  = Ok (filtered ++ List.filter (fun c => in_range s e (date c)) commits).
Proof.
  revert filtered. induction commits as [|c commits IH]; intros filtered Hall.
  - by rewrite app_nil_r.
  - cbn [forallb] in Hall. apply andb_true_iff in Hall as [Hc Hall].
    cbn [fold_left filter_step List.filter]. unfold parses in Hc.
    unfold in_range, date_leb.
    destruct (strptime (date c)) as [d|]; [|done].
    destruct s as [s|], e as [e|]; cbn [negb andb];
      repeat match goal with
             | |- context [date_ltb ?a ?b] => destruct (date_ltb a b)
             end;
      cbn [negb andb]; rewrite IH by done; by rewrite <- ?app_assoc.
Qed.

(** X5: when every date parses, the filter returns the commits whose date
    lies between the bounds, both bounds included, in the order of the
    input; an absent bound does not bind. *)
Theorem filter_commits_range (commits : list commit) (s e : option cal_date) :
  forallb (fun c => parses (date c)) commits = true ->
  filter_commits commits s e
  = Ok (List.filter (fun c => in_range s e (date c)) commits).
Proof. intros Hall. unfold filter_commits. by rewrite filter_from_range. Qed.

Lemma filter_commits_range_witness :
  filter_commits
    [Commit "a" "2024-01-03" "x"; Commit "b" "2024-01-02" "y";
     Commit "c" "2024-01-01" "z"; Commit "d" "2023-12-31" "w"]
    (Some (Date 2024 1 1)) (Some (Date 2024 1 2))
  = Ok [Commit "b" "2024-01-02" "y"; Commit "c" "2024-01-01" "z"].
Proof.
  apply (filter_commits_range
           [Commit "a" "2024-01-03" "x"; Commit "b" "2024-01-02" "y";
            Commit "c" "2024-01-01" "z"; Commit "d" "2023-12-31" "w"]
           (Some (Date 2024 1 1)) (Some (Date 2024 1 2))).
  reflexivity.
Defined.

Lemma date_leb_antisym (a b : cal_date) :
  date_leb a b && date_leb b a = date_eqb b a.
Proof.
  unfold date_leb, date_eqb, date_ltb.
  destruct (Z.ltb_spec (year b) (year a)), (Z.ltb_spec (year a) (year b)),
    (Z.eqb_spec (year b) (year a)), (Z.eqb_spec (year a) (year b)),
    (Z.ltb_spec (month b) (month a)), (Z.ltb_spec (month a) (month b)),
    (Z.eqb_spec (month b) (month a)), (Z.eqb_spec (month a) (month b)),
    (Z.ltb_spec (day b) (day a)), (Z.ltb_spec (day a) (day b)),
    (Z.eqb_spec (day b) (day a)); cbn; try done; lia.
Qed.

(** X6: with the same day for both bounds (the modes of one date, of today
    and of yesterday) the filter keeps the commits of that day and no
    other, however the day is written in the log. *)
Theorem filter_commits_one_day (commits : list commit) (d : cal_date) :
  forallb (fun c => parses (date c)) commits = true ->
  filter_commits commits (Some d) (Some d)
  = Ok (List.filter (fun c => on_day d (date c)) commits).
Proof.
  intros Hall. unfold filter_commits. rewrite filter_from_range by done.
  cbn [app]. f_equal. apply List.filter_ext. intros c.
  unfold in_range, on_day. destruct (strptime (date c)); [|done].
  apply date_leb_antisym.
Qed.

Lemma filter_commits_one_day_witness :
  filter_commits
    [Commit "a" "2024-01-03" "x"; Commit "b" "2024-1-2" "y";
     Commit "c" "2024-01-02" "z"]
    (Some (Date 2024 1 2)) (Some (Date 2024 1 2))
  = Ok [Commit "b" "2024-1-2" "y"; Commit "c" "2024-01-02" "z"].
Proof.
  apply (filter_commits_one_day
           [Commit "a" "2024-01-03" "x"; Commit "b" "2024-1-2" "y";
            Commit "c" "2024-01-02" "z"] (Date 2024 1 2)).
  reflexivity.
Defined.

(** ** The credential file *)

Lemma mem_lstrip_by (p : ascii -> bool) (c : ascii) (s : string) :
  p c = false -> Str.mem c (Str.lstrip_by p s) = Str.mem c s.
Proof.
  intros Hc. induction s as [|x s IH]; [done|]. cbn [Str.lstrip_by].
  destruct (p x) eqn:Hx; [|done]. rewrite IH. cbn [Str.mem].
  destruct (Ascii.eqb_spec c x) as [->|]; [congruence|done].
Qed.

Lemma mem_rstrip_by (p : ascii -> bool) (c : ascii) (s : string) :
  p c = false -> Str.mem c (Str.rstrip_by p s) = Str.mem c s.
Proof.
  intros Hc. induction s as [|x s IH]; [done|]. cbn [Str.rstrip_by].
  destruct (Str.rstrip_by p s) as [|x' kept].
  - cbn [Str.mem] in *. rewrite <- IH, orb_false_r.
    destruct (p x) eqn:Hx; [|by cbn; rewrite orb_false_r].
    destruct (Ascii.eqb_spec c x) as [->|]; [congruence|done].
  - cbn [Str.mem] in *. by rewrite IH.
Qed.

Lemma mem_strip_by (p : ascii -> bool) (c : ascii) (s : string) :
  p c = false -> Str.mem c (Str.strip_by p s) = Str.mem c s.
Proof.
  intros Hc. unfold Str.strip_by. by rewrite mem_rstrip_by, mem_lstrip_by.
Qed.

Lemma partition_mem (c : ascii) (s : string) :
  Str.mem c s = match Str.partition c s with Some _ => true | None => false end.
Proof.
  induction s as [|x s IH]; [done|]. cbn [Str.mem Str.partition].
  rewrite (Ascii.eqb_sym c x). destruct (Ascii.eqb x c); [done|].
  rewrite IH. by destruct (Str.partition c s) as [[a b]|].
Qed.

(** One turn of the loop of [load_dotenv_key]: the value of the line, and no
    exception: a line with an equals sign always splits in two. *)
Lemma dotenv_lookup_cons (key_name line : string) (rest : list string) :
  dotenv_lookup key_name (line :: rest)
  = match dotenv_value key_name line with
    | Some v => Ok (Some v)
    | None => dotenv_lookup key_name rest
    end.
Proof.
  cbn [dotenv_lookup Str.split_max]. unfold dotenv_value.
  destruct (Str.startswith "#" (Str.strip line)); [done|]. cbn [orb].
  rewrite <- (mem_strip_by Str.is_space "=" line) by done.
  fold (Str.strip line). rewrite partition_mem.
  destruct (Str.partition "=" (Str.strip line)) as [[k v]|]; [|done].
  cbn [negb]. by destruct (String.eqb (Str.strip k) key_name).
Qed.

Lemma dotenv_lookup_head (key_name : string) (lines : list string) :
  dotenv_lookup key_name lines = Ok (head (omap (dotenv_value key_name) lines)).
Proof.
  induction lines as [|line lines IH]; [done|].
  rewrite dotenv_lookup_cons, omap_cons.
  by destruct (dotenv_value key_name line).
Qed.

(** X7: [load_dotenv_key] never raises and leaves the world as it is.  It
    returns the value of the first line of the file, in the order of the
    file, that is no comment and gives a value to the name, and nothing
    when there is no such line or no file. *)
Theorem load_dotenv_key_first_match (key_name : string) (w : world) :
  load_dotenv_key key_name w
  = (Ok match files w !! path_join (cwd w) ".env" with
        | Some content =>
            head (omap (dotenv_value key_name) (readlines content))
        | None => None
        end,
     w).
Proof.
  unfold load_dotenv_key, isfile, try_except. unfold_monad.
  destruct (files w !! path_join (cwd w) ".env") as [content|] eqn:Hfile.
  - rewrite bool_decide_eq_true_2 by done.
    by rewrite dotenv_lookup_head, Hfile.
  - by rewrite bool_decide_eq_false_2 by by intros [? ?].
Qed.

(** A carriage return alone ends a line of the credential file. *)
Example load_dotenv_key_ex_cr :
  fst (load_dotenv_key "GEMINI_API_KEY"
         (set_files
            {["/home/me/.env"
              := "A=1" +:+ String CR "GEMINI_API_KEY=abc" +:+ NL]}
            sample_world))
  = Ok (Some "abc").
Proof. reflexivity. Qed.

(** ** The remembered repositories *)

Lemma readlines_nil (content : string) :
  readlines content = [] -> content = "".
Proof.
  induction content as [|c content IH]; [done|]. cbn [readlines].
  destruct (Ascii.eqb c LF); [done|].
  destruct (Ascii.eqb c CR).
  - destruct content as [|c' content]; [done|].
    destruct (Ascii.eqb c' LF); [|done].
    intros Hlines. by apply IH in Hlines.
  - by destruct (readlines content).
Qed.

Lemma newline_terminated_tail (c : ascii) (content : string) :
  newline_terminated (String c content) = true ->
  newline_terminated content = true.
Proof.
  unfold newline_terminated. cbn [Str.is_empty Str.endswith orb].
  by destruct content.
Qed.

(** The lines of a text after whole lines are the lines of both. *)
Lemma readlines_append (a b : string) :
  newline_terminated a = true ->
  readlines (a +:+ b) = readlines a ++ readlines b.
Proof.
  induction a as [|c a IH]; [done|]. intros Ha.
  pose proof (newline_terminated_tail c a Ha) as Ha'.
  rewrite append_cons. cbn [readlines].
  destruct (Ascii.eqb c LF) eqn:Hc; [by rewrite IH|].
  destruct (Ascii.eqb c CR).
  - destruct a as [|c' a].
    + unfold newline_terminated in Ha. cbn in Ha. by rewrite Hc in Ha.
    + rewrite append_cons. rewrite <- (append_cons c' a b), IH by done.
      by destruct (Ascii.eqb c' LF).
  - rewrite IH by done.
    destruct (readlines a) as [|line lines] eqn:Hlines; [|done].
    apply readlines_nil in Hlines as ->.
    unfold newline_terminated in Ha. cbn in Ha. by rewrite Hc in Ha.
Qed.

Lemma readlines_line (line : string) :
  Str.count LF line = 0 -> Str.count CR line = 0 ->
  readlines (line +:+ NL) = [line +:+ NL].
Proof.
  induction line as [|c line IH].
  - done.
  - rewrite append_cons. cbn [Str.count readlines].
    destruct (Ascii.eqb c LF); [done|].
    destruct (Ascii.eqb c CR); [done|]. intros Hline Hcr. by rewrite IH.
Qed.

Lemma newline_terminated_append (a line : string) :
  newline_terminated (a +:+ line +:+ NL) = true.
Proof.
  unfold newline_terminated. apply orb_true_iff. right.
  rewrite <- append_assoc. by rewrite endswith_append.
Qed.

(** What [save_repo_path] does: nothing for a path that is remembered, and
    else one line more at the end of the file. *)
Lemma save_repo_path_eq (path : string) (w : world) :
  save_repo_path path w
  = (Ok tt,
     if bool_decide (path ∈ known_paths w) then w
     else set_files
            (<[REPO_LIST_FILE
               := default "" (files w !! REPO_LIST_FILE) +:+ path +:+ NL]>
               (files w)) w).
Proof.
  unfold save_repo_path. bind_step. rewrite load_repo_paths_eq.
  by destruct (bool_decide _).
Qed.

Lemma known_paths_append (path : string) (w : world) :
  Str.strip path = path -> path <> "" ->
  Str.count LF path = 0 -> Str.count CR path = 0 ->
  newline_terminated (default "" (files w !! REPO_LIST_FILE)) = true ->
  known_paths
    (set_files
       (<[REPO_LIST_FILE
          := default "" (files w !! REPO_LIST_FILE) +:+ path +:+ NL]>
          (files w)) w)
  = known_paths w ++ [path].
Proof.
  intros Hstrip Hsome Hline Hcr Hfile. unfold known_paths.
  cbn [files set_files]. rewrite lookup_insert_eq.
  rewrite readlines_append, readlines_line by done.
  rewrite map_app, List.filter_app. cbn [map List.filter].
  rewrite <- Hstrip, strip_line by by rewrite Hstrip.
  rewrite Hstrip.
  replace (negb (Str.is_empty path)) with true by by destruct path.
  f_equal. destruct (files w !! REPO_LIST_FILE); [done|].
  done.
Qed.

(** X8: saving a trimmed, non-empty path of one line (no line feed and no
    carriage return in it) in a file of whole lines remembers it: the paths
    loaded afterwards are the paths known before, with the new path at the
    end unless it was known; the file is again made of whole lines; and
    saving the same path once more changes nothing. *)
Theorem save_repo_path_remembers (path : string) (w : world) :
  Str.strip path = path -> path <> "" ->
  Str.count LF path = 0 -> Str.count CR path = 0 ->
  newline_terminated (default "" (files w !! REPO_LIST_FILE)) = true ->
  exists w',
    save_repo_path path w = (Ok tt, w')
    /\ load_repo_paths w'
       = (Ok (if bool_decide (path ∈ known_paths w) then known_paths w
              else known_paths w ++ [path]), w')
    /\ newline_terminated (default "" (files w' !! REPO_LIST_FILE)) = true
    /\ save_repo_path path w' = (Ok tt, w').
Proof.
  intros Hstrip Hsome Hline Hcr Hfile. rewrite save_repo_path_eq.
  eexists. split; [done|]. rewrite load_repo_paths_eq, save_repo_path_eq.
  destruct (bool_decide (path ∈ known_paths w)) eqn:Hknown.
  - by rewrite Hknown.
  - rewrite known_paths_append by done.
    rewrite bool_decide_eq_true_2
      by (apply elem_of_app; right; apply list_elem_of_here).
    split; [done|]. split; [|done].
    cbn [files set_files]. rewrite lookup_insert_eq.
    apply newline_terminated_append.
Qed.

Lemma save_repo_path_remembers_witness :
  exists w',
    save_repo_path "/home/me/proj" sample_world = (Ok tt, w')
    /\ load_repo_paths w' = (Ok ["/home/me/proj"], w')
    /\ newline_terminated (default "" (files w' !! REPO_LIST_FILE)) = true
    /\ save_repo_path "/home/me/proj" w' = (Ok tt, w').
Proof.
  apply (save_repo_path_remembers "/home/me/proj" sample_world); done.
Defined.

(** ** The prompts, further *)

Lemma enter_new_repo_path_eq (w : world) (typed : string) (rest : list string) :
  stdin w = typed :: rest ->
  Str.strip typed ∈ dirs w ->
  let w1 := set_stdin rest
              (set_stdout (stdout w ++ ["Enter new repo path: "]) w) in
  enter_new_repo_path w
  = (Ok (Str.strip typed),
     if bool_decide (Str.strip typed ∈ known_paths w1) then w1
     else set_files
            (<[REPO_LIST_FILE
               := default "" (files w1 !! REPO_LIST_FILE)
                  +:+ Str.strip typed +:+ NL]> (files w1)) w1).
Proof.
  intros Hin Hdir w1. unfold enter_new_repo_path. bind_step.
  rewrite (input_eq _ _ _ _ Hin). fold w1.
  unfold isdir. unfold_monad.
  change (dirs w1) with (dirs w). rewrite bool_decide_eq_true_2 by done.
  by rewrite save_repo_path_eq.
Qed.

(** The menu of repositories up to the choice typed: only the console has
    moved. *)
Lemma prompt_repo_path_menu_console (w : world) (p : string)
    (paths : list string) (choice : string) (rest : list string) :
  known_paths w = p :: paths ->
  stdin w = choice :: rest ->
  exists w1,
    stdin w1 = rest /\ console_only w w1
    /\ prompt_repo_path w
       = try_except
           (choice ← lift (py_int (Str.strip choice));
            if (1 <=? choice)%Z
               && (choice <=? Z.of_nat (length (p :: paths)))%Z then
              match (p :: paths) !! Z.to_nat (choice - 1) with
              | Some p => mret p
              | None => raise IndexError
              end
            else if (choice =? Z.of_nat (length (p :: paths)) + 1)%Z then
              enter_new_repo_path
            else print "Invalid choice.";; sys_exit 1)
           (fun _ => print "Invalid input.";; sys_exit 1) w1.
Proof.
  intros Hpaths Hin. unfold prompt_repo_path. bind_step.
  rewrite load_repo_paths_eq, Hpaths.
  unfold mbind at 1, M_bind at 1, print at 1, modify.
  bind_step.
  edestruct (print_paths (p :: paths) 1) as [out ->].
  unfold mbind at 1, M_bind at 1, print at 1, modify.
  bind_step.
  erewrite input_eq by (cbn; exact Hin).
  eexists. split; [|split]; [..|reflexivity]; done.
Qed.

(** X9: a choice between 1 and the number of remembered paths returns the
    path of that rank; nothing is asked further and only the console
    moves. *)
Theorem prompt_repo_path_choice (w : world) (choice : string)
    (rest : list string) (z : Z) :
  stdin w = choice :: rest ->
  py_int (Str.strip choice) = Ok z ->
  (1 <= z <= Z.of_nat (length (known_paths w)))%Z ->
  exists p w',
    prompt_repo_path w = (Ok p, w')
    /\ known_paths w !! Z.to_nat (z - 1) = Some p
    /\ console_only w w' /\ stdin w' = rest.
Proof.
  intros Hin Hint Hrange.
  destruct (known_paths w) as [|p0 paths] eqn:Hknown; [cbn in Hrange; lia|].
  destruct (prompt_repo_path_menu_console w p0 paths choice rest Hknown Hin)
    as (w1 & Hin1 & Hconsole & ->).
  unfold try_except. bind_step. unfold lift. rewrite Hint.
  rewrite (proj2 (andb_true_iff _ _))
    by (rewrite !Z.leb_le; lia).
  destruct ((p0 :: paths) !! Z.to_nat (z - 1)) as [p|] eqn:Hp.
  - by exists p, w1.
  - apply lookup_ge_None in Hp. lia.
Qed.

Lemma prompt_repo_path_choice_witness :
  exists p w',
    prompt_repo_path
      (set_stdin [" 2 "; "1"]
         (set_files {[REPO_LIST_FILE := "/a" +:+ NL +:+ "/b" +:+ NL]}
            sample_world))
    = (Ok p, w')
    /\ known_paths
         (set_stdin [" 2 "; "1"]
            (set_files {[REPO_LIST_FILE := "/a" +:+ NL +:+ "/b" +:+ NL]}
               sample_world)) !! Z.to_nat (2 - 1) = Some p
    /\ console_only
         (set_stdin [" 2 "; "1"]
            (set_files {[REPO_LIST_FILE := "/a" +:+ NL +:+ "/b" +:+ NL]}
               sample_world)) w'
    /\ stdin w' = ["1"].
Proof.
  apply (prompt_repo_path_choice
           (set_stdin [" 2 "; "1"]
              (set_files {[REPO_LIST_FILE := "/a" +:+ NL +:+ "/b" +:+ NL]}
                 sample_world)) " 2 " ["1"] 2); [reflexivity..|].
  by vm_compute.
Defined.

(** X10: a directory typed as a new path, on the first run or after the
    choice "add new", is returned trimmed, and, when it holds no line feed
    and no carriage return, it is remembered: the paths known afterwards
    are those known before, with the new one at the end unless it was among
    them. *)
Theorem prompt_repo_path_new (w : world) (choice typed : string)
    (rest : list string) :
  Str.strip typed ∈ dirs w ->
  Str.strip typed <> "" ->
  Str.count LF (Str.strip typed) = 0 ->
  Str.count CR (Str.strip typed) = 0 ->
  newline_terminated (default "" (files w !! REPO_LIST_FILE)) = true ->
  (known_paths w = [] /\ stdin w = typed :: rest)
  \/ (known_paths w <> [] /\ stdin w = choice :: typed :: rest
      /\ py_int (Str.strip choice)
         = Ok (Z.of_nat (length (known_paths w)) + 1)%Z) ->
  exists w',
    prompt_repo_path w = (Ok (Str.strip typed), w')
    /\ known_paths w'
       = (if bool_decide (Str.strip typed ∈ known_paths w) then known_paths w
          else known_paths w ++ [Str.strip typed])
    /\ stdin w' = rest.
Proof.
  intros Hdir Hsome Hline Hcr Hfile Hentry.
  assert (forall w1,
            stdin w1 = typed :: rest -> console_only w w1 ->
            exists w',
              enter_new_repo_path w1 = (Ok (Str.strip typed), w')
              /\ known_paths w'
                 = (if bool_decide (Str.strip typed ∈ known_paths w)
                    then known_paths w
                    else known_paths w ++ [Str.strip typed])
              /\ stdin w' = rest) as Henter.
  { intros w1 Hin1 (Hfiles & Hdirs & _).
    rewrite (enter_new_repo_path_eq w1 typed rest Hin1) by by rewrite Hdirs.
    set (w2 := set_stdin rest _).
    assert (known_paths w2 = known_paths w) as Hknown
      by (unfold known_paths; cbn [files w2 set_stdin set_stdout];
          by rewrite Hfiles).
    rewrite Hknown. eexists. split; [done|].
    destruct (bool_decide (Str.strip typed ∈ known_paths w)); [done|].
    split; [|done]. rewrite <- Hknown. apply known_paths_append; try done.
    - apply strip_by_idem.
    - cbn [files w2 set_stdin set_stdout]. by rewrite Hfiles. }
  destruct Hentry as [[Hnone Hin]|(Hpaths & Hin & Hint)].
  - destruct (Henter w Hin) as (w' & Henter' & Hknown' & Hin'); [done|].
    exists w'. split; [|done].
    unfold prompt_repo_path. bind_step. by rewrite load_repo_paths_eq, Hnone.
  - destruct (known_paths w) as [|p paths] eqn:Hknown; [done|].
    destruct (prompt_repo_path_menu_console w p paths choice _ Hknown Hin)
      as (w1 & Hin1 & Hconsole & ->).
    unfold try_except. bind_step. unfold lift. rewrite Hint.
    rewrite (proj2 (andb_false_iff _ _)) by (rewrite Z.leb_gt, Z.leb_gt; lia).
    rewrite Z.eqb_refl.
    destruct (Henter w1 Hin1 Hconsole) as (w' & -> & Hknown' & Hin').
    by exists w'.
Qed.

Lemma prompt_repo_path_new_witness :
  exists w',
    prompt_repo_path (set_stdin [" /home/me/proj "; "1"] sample_world)
    = (Ok "/home/me/proj", w')
    /\ known_paths w' = ["/home/me/proj"]
    /\ stdin w' = ["1"].
Proof.
  apply (prompt_repo_path_new
           (set_stdin [" /home/me/proj "; "1"] sample_world)
           "" " /home/me/proj " ["1"]).
  - apply (bool_decide_unpack _). by vm_compute.
  - done.
  - reflexivity.
  - reflexivity.
  - reflexivity.
  - left. split; reflexivity.
Defined.

(** X11: the dates asked for are both given or both absent, and any choice
    other than "2", "3", "4" and "5" (the trimmed line) means all history:
    no date is asked for and no bound is set. *)
Theorem prompt_dates_both_or_none (w : world) :
  (forall r w',
      prompt_dates w = (Ok r, w') ->
      r = (None, None) \/ exists s e, r = (Some s, Some e))
  /\ (forall choice rest,
        stdin w = choice :: rest ->
        Str.strip choice ∉ ["2"; "3"; "4"; "5"] ->
        exists w',
          prompt_dates w = (Ok (None, None), w')
          /\ console_only w w' /\ stdin w' = rest).
Proof.
  split.
  - intros r w'. unfold prompt_dates, input, print, try_except.
    unfold_monad. cbn.
    repeat case_match; intros; simplify_eq; eauto.
  - intros choice rest Hin Hchoice.
    unfold prompt_dates. do 6 bind_step. unfold print at 1 2 3 4 5 6, modify.
    bind_step. erewrite input_eq by (cbn; exact Hin).
    assert (forall other, other ∈ ["2"; "3"; "4"; "5"] ->
                          String.eqb (Str.strip choice) other = false) as Hno.
    { intros other Hother. apply String.eqb_neq.
      intros Heq. apply Hchoice. by rewrite Heq. }
    rewrite !Hno
      by repeat first [apply list_elem_of_here | apply list_elem_of_further].
    eexists. split; [reflexivity|]. done.
Qed.

(** X12: the credential is looked for in three places, in this order: the
    credential file, the environment, the console.  A value found in one
    place, not empty, is returned and the later places are not looked at: in
    particular nothing is asked on the console when the file or the
    environment has the key. *)
Theorem prompt_api_key_precedence (w : world) (found : option string) :
  load_dotenv_key "GEMINI_API_KEY" w = (Ok found, w) ->
  (falsy found = false -> prompt_api_key w = (Ok (default "" found), w))
  /\ (falsy found = true ->
      falsy (environ w !! "GEMINI_API_KEY") = false ->
      prompt_api_key w
      = (Ok (default "" (environ w !! "GEMINI_API_KEY")), w))
  /\ (falsy found = true ->
      falsy (environ w !! "GEMINI_API_KEY") = true ->
      forall typed rest,
        stdin w = typed :: rest ->
        Str.strip typed <> "" ->
        prompt_api_key w
        = (Ok (Str.strip typed),
           set_stdin rest
             (set_stdout
                (stdout w
                 ++ ["Enter Gemini API key (or set GEMINI_API_KEY env): "])
                w))).
Proof.
  intros Hfile.
  split; [|split]; unfold prompt_api_key; bind_step; rewrite Hfile.
  - intros Hfound. unfold_monad. by rewrite !Hfound.
  - intros Hfound Henv. unfold_monad. by rewrite Hfound, !Henv.
  - intros Hfound Henv typed rest Hin Htyped. rewrite Hfound.
    do 2 bind_step. unfold get at 1, mret at 1, M_ret at 1.
    rewrite Henv. do 2 bind_step. rewrite (input_eq _ _ _ _ Hin).
    unfold_monad. cbn [falsy default].
    destruct (Str.strip typed) eqn:Hstrip; [done|]. reflexivity.
Qed.

Lemma prompt_api_key_precedence_witness :
  prompt_api_key
    (set_files {["/home/me/.env" := "GEMINI_API_KEY='from file'" +:+ NL]}
       sample_world)
  = (Ok "from file",
     set_files {["/home/me/.env" := "GEMINI_API_KEY='from file'" +:+ NL]}
       sample_world).
Proof.
  apply (prompt_api_key_precedence
           (set_files
              {["/home/me/.env" := "GEMINI_API_KEY='from file'" +:+ NL]}
              sample_world) (Some "from file")); reflexivity.
Defined.

(** ** The summary of a day and the report *)

Section ReportProperties.

Variable str_exn : exn -> string.
Variable http_post : nat -> request -> http_reply.
Variable git_log : string -> git_outcome.

(** X13: an answer of the service that is a JSON object, with a status that
    is no error, gives the member text of the first part of the content of
    the first candidate; further candidates and parts are not looked at.  The
    request is recorded as sent. *)
Theorem summarize_returns_text (messages : list string) (api_key : string)
    (w : world) (status : nat) (res : list (string * pyval))
    (first content part text : pyval) (others parts : list pyval) :
  http_post (length (posts w)) (gemini_request messages api_key)
  = Reply status (Some (PDict res)) ->
  raise_for_status status = Ok tt ->
  dict_get res "candidates" = Some (PList (first :: others)) ->
  getitem first "content" = Ok content ->
  getitem content "parts" = Ok (PList (part :: parts)) ->
  getitem part "text" = Ok text ->
  summarize_with_gemini str_exn http_post messages api_key w
  = (Ok text, set_posts (posts w ++ [gemini_request messages api_key]) w).
Proof.
  intros Hreply Hstatus Hcandidates Hcontent Hparts Htext.
  rewrite summarize_eq, Hreply. f_equal. f_equal.
  unfold summary_of, read_reply. rewrite Hstatus.
  unfold response_json, first_candidate_text, py_contains, getitem at 1.
  unfold mbind, result_bind. cbn.
  rewrite Hcandidates. cbn. rewrite Hcontent, Hparts. cbn.
  change (match part with
          | PDict d =>
              match dict_get d "text" with
              | Some x => Ok x
              | None => Raise KeyError
              end
          | _ => Raise TypeError
          end) with (getitem part "text").
  by rewrite Htext.
Qed.

(** X14: when the summary of every date is a string, [analyze_commits] ends
    normally and what it leaves is this: one request sent for each distinct
    date, in ascending order of the dates, carrying the messages of that date
    in the order of the log; the report file holding the title line and then
    the section of each date, joined by line feeds; the console holding one
    line for each point of each summary, in the order of the dates; the two
    folders made.  Nothing else of the world changes. *)
Theorem analyze_commits_report (commits : list commit)
    (api_key repo_path : string) (s e : cal_date) (w : world)
    (ts : list string) :
  let dates :=
    merge_sort String.le (map fst (group_commits_by_date commits)) in
  let repo_name := basename (abspath (cwd w) repo_path) in
  let label := date_label s e in
  let folder := path_join REPORTS_DIR repo_name in
  let title :=
    "# Work Summary for " +:+ repo_name +:+ " (" +:+ label +:+ ")" +:+ NL in
  summaries str_exn http_post commits api_key dates (length (posts w))
  = Some ts ->
  analyze_commits str_exn http_post commits api_key repo_path
    (DateObj s) (DateObj e) w
  = (Ok tt,
     set_stdout
       (stdout w
        ++ map (fun p => "- " +:+ p) (concat (map extract_task_points ts)))
       (set_files
          (<[path_join folder (label +:+ ".md")
             := Str.join NL
                  (title
                   :: concat (zip_with
                                (fun d t =>
                                   date_section d (messages_on d commits) t)
                                dates ts))]> (files w))
          (set_posts
             (posts w
              ++ map (fun d => gemini_request (messages_on d commits) api_key)
                     dates)
             (set_dirs ({[REPORTS_DIR; folder]} ∪ dirs w) w)))).
Proof.
  intros dates repo_name label folder title Hts.
  rewrite analyze_commits_eq. fold dates repo_name label folder title.
  by rewrite (loop_summaries str_exn http_post commits api_key dates ts).
Qed.

(** X15: when the summary of some date is no string (the text member of the
    answer is a number, null, a list, ..), [analyze_commits] raises
    [AttributeError]: no report is written and nothing is printed, though the
    folders are made and requests were sent. *)
Theorem analyze_commits_not_text (commits : list commit)
    (api_key repo_path : string) (s e : cal_date) (w : world) :
  let dates :=
    merge_sort String.le (map fst (group_commits_by_date commits)) in
  let folder := path_join REPORTS_DIR (basename (abspath (cwd w) repo_path)) in
  summaries str_exn http_post commits api_key dates (length (posts w)) = None ->
  exists sent,
    analyze_commits str_exn http_post commits api_key repo_path
      (DateObj s) (DateObj e) w
    = (Raise AttributeError,
       set_posts sent (set_dirs ({[REPORTS_DIR; folder]} ∪ dirs w) w)).
Proof.
  intros dates folder Hts.
  rewrite analyze_commits_eq. fold dates folder.
  set (header := [_]).
  destruct (loop_not_text str_exn http_post commits api_key dates header []
              (set_dirs ({[REPORTS_DIR; folder]} ∪ dirs w) w) Hts)
    as [sent ->].
  by exists sent.
Qed.

End ReportProperties.

Lemma summarize_returns_text_witness :
  summarize_with_gemini sample_str_exn sample_online ["fix parser"] "key"
    sample_world
  = (Ok (PStr ("- fixed the parser" +:+ NL +:+ "- wrote tests")),
     set_posts (posts sample_world ++ [gemini_request ["fix parser"] "key"])
       sample_world).
Proof.
  apply (summarize_returns_text sample_str_exn sample_online ["fix parser"]
           "key" sample_world 200
           [("candidates",
             PList [PDict [("content",
                            PDict [("parts",
                                    PList [PDict [("text",
                                                   PStr ("- fixed the parser"
                                                         +:+ NL
                                                         +:+ "- wrote tests"))]])])]])]
           (PDict [("content",
                    PDict [("parts",
                            PList [PDict [("text",
                                           PStr ("- fixed the parser" +:+ NL
                                                 +:+ "- wrote tests"))]])])])
           (PDict [("parts",
                    PList [PDict [("text",
                                   PStr ("- fixed the parser" +:+ NL
                                         +:+ "- wrote tests"))]])])
           (PDict [("text",
                    PStr ("- fixed the parser" +:+ NL +:+ "- wrote tests"))])
           (PStr ("- fixed the parser" +:+ NL +:+ "- wrote tests")) [] []);
    reflexivity.
Defined.

Lemma analyze_commits_report_witness :
  exists w',
    analyze_commits sample_str_exn sample_online sample_commits "key"
      "/home/me/proj" (DateObj (Date 2024 1 1)) (DateObj (Date 2024 1 2))
      sample_world
    = (Ok tt, w')
    /\ stdout w'
       = ["- fixed the parser"; "- wrote tests";
          "- fixed the parser"; "- wrote tests"]
    /\ map json_body (posts w')
       = map (fun ms => json_body (gemini_request ms "key"))
           [["first commit"]; ["fix parser"; "add tests"]].
Proof.
  eexists. split; [|split].
  - apply (analyze_commits_report sample_str_exn sample_online sample_commits
             "key" "/home/me/proj" (Date 2024 1 1) (Date 2024 1 2)
             sample_world
             ["- fixed the parser" +:+ NL +:+ "- wrote tests";
              "- fixed the parser" +:+ NL +:+ "- wrote tests"]).
    reflexivity.
  - reflexivity.
  - reflexivity.
Defined.

Lemma analyze_commits_not_text_witness :
  exists sent,
    analyze_commits sample_str_exn sample_numeric sample_commits "key"
      "/home/me/proj" (DateObj (Date 2024 1 1)) (DateObj (Date 2024 1 2))
      sample_world
    = (Raise AttributeError,
       set_posts sent
         (set_dirs
            ({[REPORTS_DIR;
               path_join REPORTS_DIR
                 (basename (abspath (cwd sample_world) "/home/me/proj"))]}
             ∪ dirs sample_world) sample_world)).
Proof.
  apply (analyze_commits_not_text sample_str_exn sample_numeric sample_commits
           "key" "/home/me/proj" (Date 2024 1 1) (Date 2024 1 2) sample_world).
  reflexivity.
Defined.

(** X16: the dates the report goes through, [sorted(grouped.keys())], are
    the dates of the commits, each one once, in ascending order, whatever the
    order of the log. *)
Theorem report_dates_ascending (commits : list commit) :
  let dates :=
    merge_sort String.le (map fst (group_commits_by_date commits)) in
  StronglySorted String.le dates
  /\ NoDup dates
  /\ forall d, d ∈ dates <-> d ∈ map date commits.
Proof.
  intros dates.
  assert (dates ≡ₚ map fst (group_commits_by_date commits)) as Hperm
    by apply merge_sort_Permutation.
  split; [|split].
  - apply (StronglySorted_merge_sort _).
  - rewrite Hperm. by apply group_from_NoDup, NoDup_nil.
  - intros d. rewrite Hperm.
    destruct (group_from_complete commits []) as (_ & Hkeys & _).
    unfold group_commits_by_date. rewrite Hkeys. cbn [map].
    rewrite elem_of_nil. tauto.
Qed.

(** ** What a run touches and how it ends *)

Lemma prefix_append (p s : string) : String.prefix p (p +:+ s) = true.
Proof.
  induction p as [|c p IH]; [by destruct s|].
  simpl. destruct (ascii_dec c c); [exact IH|done].
Qed.

Lemma footprint_refl (w : world) : footprint w w.
Proof. by repeat split. Qed.

Lemma footprint_trans (w1 w2 w3 : world) :
  footprint w1 w2 -> footprint w2 w3 -> footprint w1 w3.
Proof.
  intros (He & Hc & Ht & Hf & Hs) (He' & Hc' & Ht' & Hf' & Hs').
  repeat split; try congruence.
  - intros path H1 H2. by rewrite Hf', Hf.
  - intros path H. by apply Hs', Hs.
Qed.

Lemma footprint_same_files (w w' : world) :
  files w' = files w -> environ w' = environ w -> cwd w' = cwd w ->
  today w' = today w -> footprint w w'.
Proof. intros Hf He Hc Ht. repeat split; try done; intros; by rewrite Hf. Qed.

Lemma footprint_insert (w w' : world) (path text : string) :
  path = REPO_LIST_FILE \/ String.prefix "reports/" path = true ->
  files w' = <[path := text]> (files w) ->
  environ w' = environ w -> cwd w' = cwd w -> today w' = today w ->
  footprint w w'.
Proof.
  intros Hpath Hf He Hc Ht. repeat split; try done; rewrite Hf.
  - intros other H1 H2. apply lookup_insert_ne.
    intros ->. destruct Hpath; congruence.
  - intros other H. rewrite lookup_insert_is_Some'. by right.
Qed.

Lemma behaves_ret {A : Type} (Q : A -> Prop) (E : exn -> Prop) (a : A) :
  Q a -> behaves Q E (mret a).
Proof. intros H w. split; [apply footprint_refl|done]. Qed.

Lemma behaves_raise {A : Type} (Q : A -> Prop) (E : exn -> Prop) (e : exn) :
  E e -> behaves Q E (raise e).
Proof. intros H w. split; [apply footprint_refl|done]. Qed.

Lemma behaves_lift {A : Type} (Q : A -> Prop) (E : exn -> Prop)
    (r : result A) :
  match r with Ok a => Q a | Raise e => E e end -> behaves Q E (lift r).
Proof. intros H w. split; [apply footprint_refl|done]. Qed.

Lemma behaves_get {A : Type} (E : exn -> Prop) (f : world -> A) :
  behaves (fun _ => True) E (get f).
Proof. intros w. split; [apply footprint_refl|done]. Qed.

Lemma behaves_bind {A B : Type} (Q : A -> Prop) (Q' : B -> Prop)
    (E : exn -> Prop) (m : M A) (k : A -> M B) :
  behaves Q E m -> (forall a, Q a -> behaves Q' E (k a)) ->
  behaves Q' E (m ≫= k).
Proof.
  intros Hm Hk w. unfold mbind, M_bind.
  destruct (Hm w) as [Hf Hr]. destruct (m w) as [[a|e] w1]; cbn in *.
  - destruct (Hk a Hr w1) as [Hf' Hr']. split; [|done].
    by eapply footprint_trans.
  - done.
Qed.

Lemma behaves_try_except {A : Type} (Q : A -> Prop) (E : exn -> Prop)
    (body : M A) (handler : exn -> M A) :
  behaves Q (fun e => is_Exception e = true \/ E e) body ->
  (forall e, is_Exception e = true -> behaves Q E (handler e)) ->
  behaves Q E (try_except body handler).
Proof.
  intros Hbody Hhandler w. unfold try_except.
  destruct (Hbody w) as [Hf Hr]. destruct (body w) as [[a|e] w1]; cbn in *.
  - done.
  - destruct (is_Exception e) eqn:He.
    + destruct (Hhandler e He w1) as [Hf' Hr']. split; [|done].
      by eapply footprint_trans.
    + split; [done|]. by destruct Hr.
Qed.

Lemma behaves_print (E : exn -> Prop) (s : string) :
  behaves (fun _ => True) E (print s).
Proof. intros w. split; [by apply footprint_same_files|done]. Qed.

Lemma behaves_input (E : exn -> Prop) (prompt : string) :
  E EOFError -> behaves (fun _ => True) E (input prompt).
Proof.
  intros HE w. unfold input, print, mbind, M_bind, get, modify. cbn.
  destruct (stdin w); cbn; (split; [by apply footprint_same_files|done]).
Qed.

Lemma behaves_exit {A : Type} (Q : A -> Prop) (E : exn -> Prop)
    (message : string) (code : nat) :
  E (SystemExit code) -> behaves Q E (print message;; sys_exit code).
Proof.
  intros HE. eapply behaves_bind; [apply behaves_print|].
  intros _ _. by apply behaves_raise.
Qed.

Lemma behaves_for_each {A S : Type} (E : exn -> Prop) (xs : list A)
    (body : S -> A -> M S) (acc : S) :
  (forall acc x, behaves (fun _ => True) E (body acc x)) ->
  behaves (fun _ => True) E (for_each xs body acc).
Proof.
  intros Hbody. revert acc. induction xs as [|x xs IH]; intros acc.
  - by apply behaves_ret.
  - cbn [for_each]. eapply behaves_bind; [apply Hbody|]. intros acc' _. apply IH.
Qed.

Lemma filter_commits_outcome (commits : list commit)
    (s e : option cal_date) :
  match filter_commits commits s e with
  | Ok _ => True
  | Raise x => x = ValueError
  end.
Proof.
  unfold filter_commits.
  destruct (forallb (fun c => parses (date c)) commits) eqn:Hall.
  - by rewrite filter_from_range.
  - by rewrite filter_from_unparsable by by apply not_all_parse.
Qed.

Lemma day_before_outcome (d : cal_date) :
  match day_before d with
  | Ok _ => True
  | Raise x => x = OverflowError
  end.
Proof.
  unfold day_before.
  by destruct (2 <=? day d)%Z, (2 <=? month d)%Z, (2 <=? year d)%Z.
Qed.

Lemma behaves_save_repo_path (E : exn -> Prop) (path : string) :
  behaves (fun _ => True) E (save_repo_path path).
Proof.
  intros w. rewrite save_repo_path_eq. cbn [fst snd]. split; [|done].
  destruct (bool_decide _); [apply footprint_refl|].
  eapply footprint_insert; [|reflexivity|done..]. by left.
Qed.

Lemma behaves_enter_new_repo_path (E : exn -> Prop) :
  E EOFError -> E (SystemExit 1) ->
  behaves (fun _ => True) E enter_new_repo_path.
Proof.
  intros Heof Hexit. unfold enter_new_repo_path.
  eapply behaves_bind; [by apply behaves_input|]. intros typed _.
  eapply behaves_bind; [apply behaves_get|]. intros [|] _.
  - eapply behaves_bind; [apply behaves_save_repo_path|].
    intros _ _. by apply behaves_ret.
  - by apply behaves_exit.
Qed.

Lemma behaves_prompt_repo_path (E : exn -> Prop) :
  E EOFError -> E (SystemExit 1) ->
  behaves (fun _ => True) E prompt_repo_path.
Proof.
  intros Heof Hexit. unfold prompt_repo_path.
  eapply behaves_bind with (Q := fun _ => True).
  { intros w. rewrite load_repo_paths_eq. split; [apply footprint_refl|done]. }
  intros [|p paths] _; [by apply behaves_enter_new_repo_path|].
  eapply behaves_bind; [apply behaves_print|]. intros _ _.
  eapply behaves_bind with (Q := fun _ => True).
  { apply behaves_for_each. intros idx q.
    eapply behaves_bind; [apply behaves_print|]. intros _ _.
    by apply behaves_ret. }
  intros _ _.
  eapply behaves_bind; [apply behaves_print|]. intros _ _.
  eapply behaves_bind; [by apply behaves_input|]. intros choice _.
  apply behaves_try_except.
  - eapply behaves_bind with (Q := fun _ => True).
    { apply behaves_lift.
      destruct (py_int (Str.strip choice)) as [z|x] eqn:Hint; [done|].
      apply py_int_raises in Hint as ->. by left. }
    intros z _. destruct (_ && _).
    + destruct (_ !! _); [by apply behaves_ret|].
      apply behaves_raise. by left.
    + destruct (_ =? _)%Z.
      * apply behaves_enter_new_repo_path; [by left|by right].
      * apply behaves_exit. by right.
  - intros e _. by apply behaves_exit.
Qed.

Lemma behaves_prompt_dates (E : exn -> Prop) :
  E EOFError -> E (SystemExit 1) -> E OverflowError ->
  behaves (fun _ => True) E prompt_dates.
Proof.
  intros Heof Hexit Hover. unfold prompt_dates.
  do 6 (eapply behaves_bind; [apply behaves_print|]; intros _ _).
  eapply behaves_bind; [by apply behaves_input|]. intros choice _.
  repeat match goal with
         | |- behaves _ _ (if ?b then _ else _) => destruct b
         end.
  - eapply behaves_bind; [by apply behaves_input|]. intros date_str _.
    apply behaves_try_except.
    + eapply behaves_bind with (Q := fun _ => True).
      { apply behaves_lift.
        destruct (strptime _) as [d|x] eqn:Hd; [done|].
        apply strptime_raises in Hd as ->. by left. }
      intros d _. by apply behaves_ret.
    + intros e _. by apply behaves_exit.
  - eapply behaves_bind; [by apply behaves_input|]. intros start_str _.
    eapply behaves_bind; [by apply behaves_input|]. intros end_str _.
    apply behaves_try_except.
    + eapply behaves_bind with (Q := fun _ => True).
      { apply behaves_lift.
        destruct (strptime _) as [d|x] eqn:Hd; [done|].
        apply strptime_raises in Hd as ->. by left. }
      intros d1 _.
      eapply behaves_bind with (Q := fun _ => True).
      { apply behaves_lift.
        destruct (strptime _) as [d|x] eqn:Hd; [done|].
        apply strptime_raises in Hd as ->. by left. }
      intros d2 _. by apply behaves_ret.
    + intros e _. by apply behaves_exit.
  - eapply behaves_bind; [apply behaves_get|]. intros t _.
    by apply behaves_ret.
  - eapply behaves_bind; [apply behaves_get|]. intros t _.
    eapply behaves_bind with (Q := fun _ => True).
    { apply behaves_lift. pose proof (day_before_outcome t) as Hday.
      destruct (day_before t); [done|by subst]. }
    intros y _. by apply behaves_ret.
  - by apply behaves_ret.
Qed.

Lemma behaves_prompt_api_key (E : exn -> Prop) :
  E EOFError -> E (SystemExit 1) ->
  behaves (fun _ => True) E prompt_api_key.
Proof.
  intros Heof Hexit. unfold prompt_api_key.
  eapply behaves_bind with (Q := fun _ => True).
  { intros w. destruct (load_dotenv_key_eq "GEMINI_API_KEY" w) as [found ->].
    split; [apply footprint_refl|done]. }
  intros found _.
  eapply behaves_bind with (Q := fun _ => True).
  { destruct (falsy found); [|by apply behaves_ret].
    eapply behaves_bind; [apply behaves_get|]. intros env _.
    by apply behaves_ret. }
  intros found' _.
  eapply behaves_bind with (Q := fun _ => True).
  { destruct (falsy found'); [|by apply behaves_ret].
    eapply behaves_bind; [by apply behaves_input|]. intros typed _.
    by apply behaves_ret. }
  intros found'' _.
  destruct (falsy found''); [by apply behaves_exit|by apply behaves_ret].
Qed.

Section RunProperties.

Variable str_exn : exn -> string.
Variable http_post : nat -> request -> http_reply.
Variable git_log : string -> git_outcome.

Lemma behaves_fetch_commits (E : exn -> Prop) (repo_path : string) :
  behaves (fun _ => True) E (fetch_commits str_exn git_log repo_path).
Proof.
  intros w. rewrite fetch_commits_eq.
  destruct (git_log _); cbn [fst snd];
    (split; [by apply footprint_same_files|done]).
Qed.

Lemma behaves_analyze_commits (E : exn -> Prop) (commits : list commit)
    (api_key repo_path : string) (start_date end_date : date_arg) :
  E AttributeError ->
  behaves (fun _ => True) E
    (analyze_commits str_exn http_post commits api_key repo_path
       start_date end_date).
Proof.
  intros Hattr w.
  destruct start_date as [s|a], end_date as [e|b].
  - rewrite analyze_commits_eq.
    set (dates := merge_sort _ _). set (header := [_]).
    set (w1 := set_dirs _ w).
    assert (footprint w w1) as Hw1 by by apply footprint_same_files.
    destruct (summaries str_exn http_post commits api_key dates
                (length (posts w1))) as [ts|] eqn:Hts.
    + rewrite (loop_summaries str_exn http_post commits api_key dates ts
                 header [] w1 Hts).
      cbn [fst snd]. split; [|done].
      eapply footprint_insert; [|reflexivity|done..]. right.
      rewrite report_file_path;
        [apply prefix_append|apply basename_no_slash
        |apply date_label_no_slash].
    + destruct (loop_not_text str_exn http_post commits api_key dates
                  header [] w1 Hts) as [sent ->].
      cbn [fst snd]. split; [|done].
      eapply footprint_trans; [exact Hw1|]. by apply footprint_same_files.
  - unfold analyze_commits. unfold_monad. cbn.
    split; [apply footprint_refl|done].
  - unfold analyze_commits. unfold_monad. cbn.
    split; [apply footprint_refl|done].
  - rewrite analyze_commits_strings.
    split; [apply footprint_refl|done].
Qed.

Lemma behaves_run (repo_path api_key : string)
    (start_date end_date : option cal_date) :
  behaves (fun _ => True) (fun e => may_escape e = true)
    (run str_exn http_post git_log repo_path start_date end_date api_key).
Proof.
  unfold run.
  eapply behaves_bind; [apply behaves_fetch_commits|].
  intros [|c commits] _; [by apply behaves_exit|].
  eapply behaves_bind with (Q := fun _ => True).
  { apply behaves_lift.
    pose proof (filter_commits_outcome (c :: commits) start_date end_date).
    destruct (filter_commits _ _ _); [done|by subst]. }
  intros [|first rest] _; [by apply behaves_exit|].
  destruct (last (first :: rest)); [|by apply behaves_exit].
  by apply behaves_analyze_commits.
Qed.

Lemma behaves_prompt_user :
  behaves (fun _ => True) (fun e => may_escape e = true) prompt_user.
Proof.
  unfold prompt_user.
  eapply behaves_bind; [by apply behaves_prompt_repo_path|].
  intros repo_path _.
  eapply behaves_bind; [by apply behaves_prompt_dates|].
  intros [start_date end_date] _.
  eapply behaves_bind; [by apply behaves_prompt_api_key|].
  intros api_key _. by apply behaves_ret.
Qed.

Lemma behaves_main :
  behaves (fun _ => True) (fun e => may_escape e = true)
    (main str_exn http_post git_log).
Proof.
  unfold main.
  eapply behaves_bind; [apply behaves_prompt_user|].
  intros [[[repo_path start_date] end_date] api_key] _.
  apply behaves_run.
Qed.

(** A date that is a string where [analyze_commits] expects a date object. *)
Lemma analyze_commits_date_str (commits : list commit)
    (api_key repo_path : string) (start_date end_date : date_arg) (w : world) :
  match start_date, end_date with
  | DateObj _, DateObj _ => True
  | _, _ =>
      analyze_commits str_exn http_post commits api_key repo_path
        start_date end_date w
      = (Raise AttributeError, w)
  end.
Proof.
  destruct start_date as [s|a], end_date as [e|b]; [done|..];
    unfold analyze_commits; unfold_monad; cbn; try done.
  by destruct (String.eqb a b).
Qed.

(** X17: whatever is typed, whatever git and the service answer, a run of
    the script writes through two kinds of paths only, the list of
    repositories and the paths below the reports folder: every other path
    holds afterwards what it held before, no file is removed, and the
    environment and the working directory are left as they were. *)
Theorem main_footprint (w : world) :
  let w' := snd (main str_exn http_post git_log w) in
  (forall path,
      path <> REPO_LIST_FILE ->
      String.prefix "reports/" path = false ->
      files w' !! path = files w !! path)
  /\ (forall path, is_Some (files w !! path) -> is_Some (files w' !! path))
  /\ environ w' = environ w /\ cwd w' = cwd w.
Proof.
  destruct (behaves_main w) as [(He & Hc & _ & Hf & Hs) _]. by repeat split.
Qed.

(** X18: a run of the script ends in one of these ways only: normally, by
    [sys.exit] with status 0 or 1, or on an [EOFError], a [ValueError], an
    [AttributeError] or an [OverflowError] that nothing catches; the exit
    status of the process is 0 or 1. *)
Theorem main_outcome (w : world) :
  match fst (main str_exn http_post git_log w) with
  | Ok _ => True
  | Raise e =>
      e ∈ [SystemExit 0; SystemExit 1; EOFError; ValueError; AttributeError;
           OverflowError]
  end
  /\ exit_code (fst (main str_exn http_post git_log w)) <= 1.
Proof.
  destruct (behaves_main w) as [_ Hr].
  destruct (fst (main str_exn http_post git_log w)) as [[]|e]; [by split; [|cbn; lia]|].
  destruct e as [[|[|code]]| | | | | | | | | | |]; try done; cbn;
    (split; [|lia]);
    repeat first [apply list_elem_of_here | apply list_elem_of_further].
Qed.

(** X19: a run that ends normally has written a report: the operator chose
    dates (a choice of all history never ends normally), and the file
    reports/<name>/<label>.md of the repository and of these dates is there
    afterwards. *)
Theorem main_normal_end (w w' : world) :
  main str_exn http_post git_log w = (Ok tt, w') ->
  exists repo_path s e api_key w1 doc,
    prompt_user w = (Ok (repo_path, Some s, Some e, api_key), w1)
    /\ files w'
       !! path_join
            (path_join REPORTS_DIR (basename (abspath (cwd w) repo_path)))
            (date_label s e +:+ ".md")
       = Some doc.
Proof.
  intros Hmain.
  destruct (behaves_prompt_user w) as [(_ & Hcwd & _) _].
  destruct (prompt_user w) as [[[[[repo sd] ed] key]|x] w1] eqn:Hprompt.
  2: { unfold main, mbind, M_bind in Hmain. by rewrite Hprompt in Hmain. }
  rewrite (main_after_prompt str_exn http_post git_log w w1 repo key sd ed
             Hprompt) in Hmain.
  cbn [snd] in Hcwd.
  pose proof (fetch_commits_eq str_exn git_log repo w1) as Hfetch.
  destruct (git_log _) as [reason|output];
    rewrite (run_eq str_exn http_post git_log _ _ _ _ _ _ _ Hfetch) in Hmain;
    [done|].
  destruct (parse_log output) as [|c commits]; [done|].
  destruct (filter_commits _ _ _) as [[|first rest]|]; [done| |done].
  destruct (last (first :: rest)) as [final|]; [|done].
  pose proof (analyze_commits_date_str (first :: rest) key repo
                (match sd with Some d => DateObj d | None => DateStr (date first) end)
                (match ed with Some d => DateObj d | None => DateStr (date final) end)
                w1) as Hstr.
  destruct sd as [s|], ed as [e|]; try by rewrite Hstr in Hmain.
  rewrite analyze_commits_eq in Hmain.
  destruct (for_each _ _ _ _) as [[[lines points]|x] w2]; [|done].
  injection Hmain as <-.
  exists repo, s, e, key, w1, (Str.join NL lines). split; [done|].
  cbn [files set_stdout set_files]. rewrite <- Hcwd. apply lookup_insert_eq.
Qed.

End RunProperties.

Lemma main_normal_end_witness :
  exists repo_path s e api_key w1 doc,
    prompt_user
      (set_stdin ["/home/me/proj"; "2"; "2024-01-02"] sample_world)
    = (Ok (repo_path, Some s, Some e, api_key), w1)
    /\ files
         (snd (main sample_str_exn sample_online sample_git
                 (set_stdin ["/home/me/proj"; "2"; "2024-01-02"]
                    sample_world)))
       !! path_join
            (path_join REPORTS_DIR
               (basename
                  (abspath
                     (cwd (set_stdin ["/home/me/proj"; "2"; "2024-01-02"]
                             sample_world)) repo_path)))
            (date_label s e +:+ ".md")
       = Some doc.
Proof.
  apply (main_normal_end sample_str_exn sample_online sample_git
           (set_stdin ["/home/me/proj"; "2"; "2024-01-02"] sample_world)).
  by vm_compute.
Defined.
